(** * Yomika: a shallow embedding of the fetch engine

    The Python package [yomika] fetches web pages through two near-duplicate
    paths ([webscrape_requests], blocking, and [webscrape_aiohttp],
    asynchronous), both wrapped in the [backoff.on_exception] retry decorator,
    throttled by a [RequestRateLimiter], and fanned out over a URL list by
    [processors.scrape_url_list_async].

    Modelling choices:
    - time is a rational number of seconds ([Q]); [time.time()] reads the
      clock of the world state, sleeping advances it;
    - the Python object heap holding rate limiters is a [gmap nat] from object
      ids to limiter records, so that aliasing of one limiter object between
      configurations is explicit;
    - exceptions are a sum type [Exn]; a fetch returns [inl] a value or [inr]
      a raised exception, together with the new world;
    - the network ([session.get]) is an oracle of the world: for each URL it
      answers with a response or a transport error, and a duration. *)

From Stdlib Require Import QArith Qminmax Lqa ZArith Ascii String.
From stdpp Require Import base gmap list strings pretty.

Open Scope string_scope.

(* ------------------------------------------------------------------ *)
(** ** [defaults.py] *)

(** Python values stored as class attributes of [Defaults]. *)
Inductive PyVal :=
| VInt (z : Z)
| VDict (d : list (string * string)).

Definition DEFAULT_HTTP_HEADERS : list (string * string) := [
  ("User-Agent", "Mozilla/5.0 (Windows NT 10.0; Win64; x64) AppleWebKit/537.36 (KHTML, like Gecko) Chrome/91.0.4472.124 Safari/537.36");
  ("Accept", "text/html,application/xhtml+xml,application/xml;q=0.9,image/webp,*/*;q=0.8");
  ("Accept-Language", "en-US,en;q=0.5");
  ("Connection", "keep-alive");
  ("Upgrade-Insecure-Requests", "1");
  ("Cache-Control", "max-age=0")
].

Definition DEFAULT_REQ_TIMEOUT : Z := 30.
Definition DEFAULT_RPS_LIMIT : Z := 250.
Definition DEFAULT_MAX_RETRIES : nat := 3.
Definition DEFAULT_MAX_TIME : Z := 90.

(** The class namespace of [Defaults], in declaration order ([_instance]
    and [__new__] belong to the singleton machinery and carry no setting). *)
Definition Defaults : list (string * PyVal) := [
  ("DEFAULT_HTTP_HEADERS", VDict DEFAULT_HTTP_HEADERS);
  ("DEFAULT_REQ_TIMEOUT", VInt DEFAULT_REQ_TIMEOUT);
  ("DEFAULT_RPS_LIMIT", VInt DEFAULT_RPS_LIMIT);
  ("DEFAULT_MAX_RETRIES", VInt (Z.of_nat DEFAULT_MAX_RETRIES));
  ("DEFAULT_MAX_TIME", VInt DEFAULT_MAX_TIME)
].

(** The header dict written inline in [webscrape_requests] (lines 126-133). *)
Definition webscrape_requests_inline_headers : list (string * string) := [
  ("User-Agent", "Mozilla/5.0 (Windows NT 10.0; Win64; x64) AppleWebKit/537.36 (KHTML, like Gecko) Chrome/91.0.4472.124 Safari/537.36");
  ("Accept", "text/html,application/xhtml+xml,application/xml;q=0.9,image/webp,*/*;q=0.8");
  ("Accept-Language", "en-US,en;q=0.5");
  ("Connection", "keep-alive");
  ("Upgrade-Insecure-Requests", "1");
  ("Cache-Control", "max-age=0")
].

(* ------------------------------------------------------------------ *)
(** ** [modules/rate_limiter.py] *)

Module RequestRateLimiter.
  Local Open Scope Q_scope.

Record t := mk {
    min_interval : Q;
    last_request_time : Q
  }.

  (** [__init__(self, requests_per_second=Defaults.DEFAULT_RPS_LIMIT)] *)
Definition init (requests_per_second : Q) : t :=
    {| min_interval := 1 / requests_per_second; last_request_time := 0 |}.

Definition init_default : t := init (inject_Z DEFAULT_RPS_LIMIT).

  (** [wait] / [wait_async]: both have the same body, with [time.sleep] or
      [await asyncio.sleep].  [clock] is the value of the first
      [time.time()]; the environment decides [overshoot], by how much the
      sleep outlasts the requested duration, and [later], the time that
      passes before the second [time.time()].  The result is the updated
      limiter and the clock after the call. *)
Definition wait (self : t) (clock overshoot later : Q) : t * Q :=
    let current_time := clock in
    let time_since_last_request := current_time - last_request_time self in
    let clock1 :=
      if Qlt_le_dec time_since_last_request (min_interval self)
      then let sleep_time := min_interval self - time_since_last_request in
           current_time + sleep_time + overshoot
      else current_time in
    let now := clock1 + later in
    ({| min_interval := min_interval self; last_request_time := now |}, now).

  (** A run of consecutive calls on one instance: each call is preceded by
      [tick] seconds of other activity and has its own [overshoot] and
      [later].  Returns the successive values of [last_request_time]. *)
Fixpoint wait_seq (self : t) (clock : Q) (env : list (Q * Q * Q)) : list Q :=
    match env with
    | [] => []
    | (tick, overshoot, later) :: env' =>
        let '(self', clock') := wait self (clock + tick) overshoot later in
        last_request_time self' :: wait_seq self' clock' env'
    end.
End RequestRateLimiter.

(* ------------------------------------------------------------------ *)
(** ** [modules/url_validator.py]: [is_valid_url] with the default
    [validator='urllib']

    [is_valid_url] returns [all([result.scheme in ('http', 'https'),
    result.netloc])] for [result = urlparse(url)], and [False] when
    [urlparse] raises.  [urlparse] is modelled by the steps of
    [urllib.parse.urlsplit] that decide [scheme] and [netloc] for ASCII
    input: strip leading C0 controls and spaces, remove tab, CR and LF,
    split a scheme off at the first [':'] when it is made of scheme
    characters and starts with a letter, split the netloc off after a
    leading ["//"], and raise [ValueError("Invalid IPv6 URL")] on unbalanced
    brackets. *)

Definition c0_control_or_space (c : ascii) : bool :=
  Nat.leb (nat_of_ascii c) 32.

Definition is_alpha (c : ascii) : bool :=
  let n := nat_of_ascii c in
  (Nat.leb 65 n && Nat.leb n 90) || (Nat.leb 97 n && Nat.leb n 122).

Definition is_digit (c : ascii) : bool :=
  let n := nat_of_ascii c in Nat.leb 48 n && Nat.leb n 57.

(** [scheme_chars]: letters, digits and ["+-."]. *)
Definition is_scheme_char (c : ascii) : bool :=
  is_alpha c || is_digit c || bool_decide (c = "+"%char)
  || bool_decide (c = "-"%char) || bool_decide (c = "."%char).

Definition ascii_lower (c : ascii) : ascii :=
  let n := nat_of_ascii c in
  if Nat.leb 65 n && Nat.leb n 90 then ascii_of_nat (n + 32) else c.

Fixpoint lstrip_c0 (s : list ascii) : list ascii :=
  match s with
  | c :: s' => if c0_control_or_space c then lstrip_c0 s' else s
  | [] => []
  end.

Definition unsafe_url_byte (c : ascii) : bool :=
  bool_decide (c = "009"%char) || bool_decide (c = "013"%char)
  || bool_decide (c = "010"%char).

(** [(url[:i], url[i+1:])] for the first [':'] at index [i]. *)
Fixpoint split_colon (s : list ascii) : option (list ascii * list ascii) :=
  match s with
  | [] => None
  | c :: s' =>
      if bool_decide (c = ":"%char) then Some ([], s')
      else match split_colon s' with
           | Some (a, b) => Some (c :: a, b)
           | None => None
           end
  end.

(** [_splitnetloc(url, 2)] after the leading ["//"]: the netloc ends at the
    first of ["/?#"]. *)
Fixpoint split_netloc (s : list ascii) : list ascii * list ascii :=
  match s with
  | [] => ([], [])
  | c :: s' =>
      if bool_decide (c = "/"%char) || bool_decide (c = "?"%char)
         || bool_decide (c = "#"%char)
      then ([], s)
      else let '(a, b) := split_netloc s' in (c :: a, b)
  end.

(** [urlsplit(url)] restricted to [(scheme, netloc)]; [None] when it raises
    [ValueError]. *)
Definition urlsplit_scheme_netloc (url : string)
    : option (list ascii * list ascii) :=
  let u := filter (fun c => negb (unsafe_url_byte c))
             (lstrip_c0 (list_ascii_of_string url)) in
  let '(scheme, rest) :=
    match u, split_colon u with
    | c0 :: _, Some (pre, post) =>
        if bool_decide (pre <> []) && is_alpha c0 && forallb is_scheme_char pre
        then (map ascii_lower pre, post) else ([], u)
    | _, _ => ([], u)
    end in
  match rest with
  | "/"%char :: "/"%char :: rest' =>
      let netloc := fst (split_netloc rest') in
      let has_open := bool_decide ("["%char ∈ netloc) in
      let has_close := bool_decide ("]"%char ∈ netloc) in
      if (has_open && negb has_close) || (has_close && negb has_open)
      then None
      else Some (scheme, netloc)
  | _ => Some (scheme, [])
  end.

Definition is_valid_url (url : string) : bool :=
  match urlsplit_scheme_netloc url with
  | Some (scheme, netloc) =>
      (bool_decide (scheme = list_ascii_of_string "http")
       || bool_decide (scheme = list_ascii_of_string "https"))
      && negb (bool_decide (netloc = []))
  | None => false
  end.

(** Python's [needle in haystack] on strings. *)
Fixpoint is_prefix (p s : list ascii) : bool :=
  match p, s with
  | [], _ => true
  | c :: p', d :: s' => bool_decide (c = d) && is_prefix p' s'
  | _ :: _, [] => false
  end.

Fixpoint is_substring_l (p s : list ascii) : bool :=
  is_prefix p s || match s with [] => false | _ :: s' => is_substring_l p s' end.

Definition py_in (needle haystack : string) : bool :=
  is_substring_l (list_ascii_of_string needle) (list_ascii_of_string haystack).

(** Header lookup in aiohttp's [CIMultiDict] and requests'
    [CaseInsensitiveDict]: keys compare case-insensitively. *)
Definition lower (s : string) : list ascii := map ascii_lower (list_ascii_of_string s).

Fixpoint headers_get (h : list (string * string)) (key : string) : option string :=
  match h with
  | [] => None
  | (k, v) :: h' => if bool_decide (lower k = lower key) then Some v else headers_get h' key
  end.

(* ------------------------------------------------------------------ *)
(** ** [classes.py] and [exceptions.py] *)

Module ScrapedResponse.
Record t := mk {
    url : string;
    status_code : Z;
    content : string;
    text : string;
    headers : list (string * string);
    elapsed_time : Q;
    content_type : string;
    success : bool;
    error : option string
  }.
End ScrapedResponse.

(** Object ids of the Python heap. *)
Definition obj_id := nat.

Module WebscrapeConfig.
Record t := mk {
    custom_headers : option (list (string * string));
    params : option (list (string * string));
    cookies : option (list (string * string));
    timeout : Z;
    allow_redirects : bool;
    verify_ssl : bool;
    expected_content_type : option string;
    proxy : option string;
    rate_limiter : option obj_id
  }.

  (** The dataclass defaults.  The default of [rate_limiter] is the object
      [RequestRateLimiter()] evaluated once, when the class body runs; it is
      stored as the class attribute [WebscrapeConfig.rate_limiter] and
      [__init__] assigns that same object to every instance built without a
      [rate_limiter] argument.  [class_default_limiter] is its object id. *)
Definition defaults (class_default_limiter : obj_id) : t := {|
    custom_headers := None;
    params := None;
    cookies := None;
    timeout := DEFAULT_REQ_TIMEOUT;
    allow_redirects := true;
    verify_ssl := true;
    expected_content_type := None;
    proxy := None;
    rate_limiter := Some class_default_limiter
  |}.
End WebscrapeConfig.

(** Exceptions: the package's own four classes ([exceptions.py], and the
    identical module-local copies in [webscrape_requests.py]), and the
    library and builtin exceptions raised inside the fetch bodies. *)
Inductive Exn :=
| InvalidURLError (msg : string)
| WebPageLoadError (msg : string)
| RateLimitExceededError (msg : string)
| ContentTypeError (msg : string)
(* aiohttp / asyncio *)
| ClientConnectorError (msg : string)
| AsyncTimeoutError (msg : string)
| AiohttpTooManyRedirects (msg : string)
| ClientResponseError (status : Z) (message url : string)
(* requests *)
| RequestsConnectionError (msg : string)
| RequestsTimeout (msg : string)
| RequestsTooManyRedirects (msg : string)
| HTTPError (msg : string)
(* builtins *)
| UnicodeDecodeError (msg : string)
| NameError (msg : string)
| OtherException (msg : string).

(** [str(e)] *)
Definition exn_str (e : Exn) : string :=
  match e with
  | InvalidURLError m | WebPageLoadError m | RateLimitExceededError m
  | ContentTypeError m | ClientConnectorError m | AsyncTimeoutError m
  | AiohttpTooManyRedirects m | RequestsConnectionError m | RequestsTimeout m
  | RequestsTooManyRedirects m | HTTPError m | UnicodeDecodeError m
  | NameError m | OtherException m => m
  | ClientResponseError s m u =>
      pretty s ++ ", message='" ++ m ++ "', url='" ++ u ++ "'"
  end.

(** The exception tuple of both [backoff.on_exception] decorators:
    [(WebPageLoadError, requests.RequestException, RateLimitExceededError,
    ConnectionError)].  The requests exceptions are [RequestException]s;
    no modelled aiohttp exception derives from the builtin
    [ConnectionError]. *)
Definition retry_on (e : Exn) : bool :=
  match e with
  | WebPageLoadError _ | RateLimitExceededError _
  | RequestsConnectionError _ | RequestsTimeout _ | RequestsTooManyRedirects _
  | HTTPError _ => true
  | _ => false
  end.

(* ------------------------------------------------------------------ *)
(** ** The world: heap of limiters, clock, log, network and randomness *)

Module Response.
Record t := mk {
    status : Z;
    reason : string;
    headers : list (string * string);
    content : string;
    text : string;
    (** whether the body decodes strictly in its charset; aiohttp's
        [response.text()] raises [UnicodeDecodeError] otherwise, requests'
        [response.text] decodes with replacement and never raises *)
    text_decodes : bool;
    (** requests' [response.url]: the URL of the last request of the
        exchange (after redirects) as requests prepared it, so with an empty
        path written [/]: ['http://a.com/'] for ['http://a.com'] *)
    url : string
  }.
End Response.

(** Transport-level failures of [session.get]. *)
Inductive TransportError :=
| TConnect (msg : string)
| TTimeout (msg : string)
| TRedirects (msg : string)
| TOther (msg : string).

(** A user callback called with a [ScrapedResponse] object: the fields of
    that object once the call is over (the callback may assign to them, and
    the caller sees the change), and [Some e] when the call raised the
    [Exception] [e]. *)
Definition Callback := ScrapedResponse.t -> ScrapedResponse.t * option Exn.

Inductive Event :=
| EvLog (level msg : string)
| EvSleep (seconds : Q)
| EvSessionOpen
| EvSessionClose
| EvNetCall (url : string)
| EvCallback (name : string) (arg : ScrapedResponse.t)
| EvBackoff (tries : nat) (elapsed wait : Q)
| EvGiveup (tries : nat) (elapsed : Q).

Record World := mkWorld {
  store : gmap obj_id RequestRateLimiter.t;
  clock : Q;
  log : list Event;
  (** the [n]-th request of the process to [url]: its duration and answer *)
  net : nat -> string -> Q * (TransportError + Response.t);
  net_calls : nat;
  (** the [n]-th [random.random()] draw, in [[0, 1)] *)
  draws : nat -> Q;
  draw_count : nat
}.

Definition emit (ev : Event) (w : World) : World :=
  {| store := store w; clock := clock w; log := log w ++ [ev]; net := net w;
     net_calls := net_calls w; draws := draws w; draw_count := draw_count w |}.

Definition set_store (s : gmap obj_id RequestRateLimiter.t) (w : World) : World :=
  {| store := s; clock := clock w; log := log w; net := net w;
     net_calls := net_calls w; draws := draws w; draw_count := draw_count w |}.

Definition set_clock (t : Q) (w : World) : World :=
  {| store := store w; clock := t; log := log w; net := net w;
     net_calls := net_calls w; draws := draws w; draw_count := draw_count w |}.

(** [time.sleep(s)] / [await asyncio.sleep(s)] *)
Definition sleep (s : Q) (w : World) : World :=
  emit (EvSleep s) (set_clock (clock w + s)%Q w).

(** [random.random()] *)
Definition draw (w : World) : Q * World :=
  (draws w (draw_count w),
   {| store := store w; clock := clock w; log := log w; net := net w;
      net_calls := net_calls w; draws := draws w; draw_count := S (draw_count w) |}).

(** [session.get(url, ...)]: one network request. *)
Definition session_get (url : string) (w : World) : (TransportError + Response.t) * World :=
  let '(dur, ans) := net w (net_calls w) url in
  (ans, emit (EvNetCall url)
          {| store := store w; clock := (clock w + dur)%Q; log := log w; net := net w;
             net_calls := S (net_calls w); draws := draws w; draw_count := draw_count w |}).

Definition logging_error (msg : string) : World -> World := emit (EvLog "ERROR" msg).
Definition logging_exception (msg : string) : World -> World := emit (EvLog "EXCEPTION" msg).

(** [await rate_limiter.wait_async()] (or [rate_limiter.wait()]) on the
    limiter object [l] of the heap; the sleep ends on time. *)
Definition limiter_wait (l : obj_id) (w : World) : World :=
  match store w !! l with
  | Some rl =>
      let '(rl', now) := RequestRateLimiter.wait rl (clock w) 0 0 in
      set_store (<[l := rl']> (store w)) (set_clock now w)
  | None => w
  end.

(** Allocation of a fresh object in the heap. *)
Definition alloc (rl : RequestRateLimiter.t) (w : World) : obj_id * World :=
  let l := fresh (dom (store w)) in (l, set_store (<[l := rl]> (store w)) w).

(** Importing [classes.py]: the class body of [WebscrapeConfig] evaluates
    [RequestRateLimiter()] once. *)
Definition import_classes (w : World) : obj_id * World :=
  alloc RequestRateLimiter.init_default w.

(* ------------------------------------------------------------------ *)
(** ** [webscrape_aiohttp.py]: one call of the undecorated coroutine *)

(** A computation with world passing that may raise. *)
Definition Result (A : Type) := ((A + Exn) * World)%type.

Section Aiohttp.
  Variable url : string.
  Variable config : WebscrapeConfig.t.
  (** [session]: [true] when the caller passed a [ClientSession]. *)
  Variable session_given : bool.
  Variable on_success : option Callback.
  Variable on_failure : option Callback.

  (** [run_on_failure()], lines 81-87.  [scrape_result] is the value of the
      enclosing local of that name when it runs; [None] stands for an
      unbound local, whose read raises [NameError]. *)
Definition run_on_failure (scrape_result : option ScrapedResponse.t) (w : World) : World :=
    match on_failure with
    | None => w
    | Some cb =>
        let r :=
          match scrape_result with
          | None => (Some (NameError "cannot access free variable 'scrape_result' where it is not associated with a value in enclosing scope"), w)
          | Some sr => (snd (cb sr), emit (EvCallback "on_failure" sr) w)
          end in
        match r with
        | (None, w') => w'
        | (Some e, w') =>
            logging_exception ("An exception was encountered while running the on_failure callback: " ++ exn_str e) w'
        end
    end.

  (** The body of the [try] block, lines 95-149: [start_time] is the first
      clock read of the call.  Returns the outcome and the value of
      [scrape_result] when the block is left. *)
Definition aiohttp_try_body (start_time : Q) (w : World)
      : ((ScrapedResponse.t + Exn) * option ScrapedResponse.t) * World :=
    (* The request headers ([config.custom_headers or
       Defaults.DEFAULT_HTTP_HEADERS]), params, cookies, redirect, TLS and
       proxy settings go to the network oracle unobserved. *)
    let '(ans, w) := session_get url w in
    match ans with
    | inl (TConnect m) => ((inr (ClientConnectorError m), None), w)
    | inl (TTimeout m) => ((inr (AsyncTimeoutError m), None), w)
    | inl (TRedirects m) => ((inr (AiohttpTooManyRedirects m), None), w)
    | inl (TOther m) => ((inr (OtherException m), None), w)
    | inr response =>
        let st := Response.status response in
        if bool_decide (st = 429%Z) || bool_decide (st = 503%Z) then
          ((inr (RateLimitExceededError ("Rate limit exceeded: " ++ pretty st)), None), w)
        else if Z.leb 400 st then
          (* response.raise_for_status() *)
          ((inr (ClientResponseError st (Response.reason response) url), None), w)
        else if negb (Response.text_decodes response) then
          ((inr (UnicodeDecodeError "invalid continuation byte"), None), w)
        else
          let content := Response.content response in
          let text := Response.text response in
          let content_type :=
            match headers_get (Response.headers response) "Content-Type" with
            | Some v => v | None => "" end in
          let ct_error :=
            match WebscrapeConfig.expected_content_type config with
            | Some et =>
                if bool_decide (et <> "") && negb (py_in et content_type)
                then Some (ContentTypeError ("Expected content type '" ++ et ++ "' but got '" ++ content_type ++ "'"))
                else None
            | None => None
            end in
          match ct_error with
          | Some e => ((inr e, None), w)
          | None =>
              let elapsed_time := (clock w - start_time)%Q in
              let scrape_result := {|
                ScrapedResponse.url := url;
                ScrapedResponse.status_code := st;
                ScrapedResponse.content := content;
                ScrapedResponse.text := text;
                ScrapedResponse.headers := Response.headers response;
                ScrapedResponse.elapsed_time := elapsed_time;
                ScrapedResponse.content_type := content_type;
                ScrapedResponse.success := true;
                ScrapedResponse.error := None |} in
              (* [on_success(scrape_result)] works on the object that is
                 then returned: its changes to the fields are kept. *)
              let '(scrape_result, w) :=
                match on_success with
                | None => (scrape_result, w)
                | Some cb =>
                    let w := emit (EvCallback "on_success" scrape_result) w in
                    let '(scrape_result, raised) := cb scrape_result in
                    (scrape_result,
                     match raised with
                     | None => w
                     | Some e => logging_exception ("An exception was encountered while running the on_sucess callback: " ++ exn_str e) w
                     end)
                end in
              ((inl scrape_result, Some scrape_result), w)
          end
    end.

  (** The [except] clauses, lines 151-185, for an exception [e] raised in the
      [try] block. *)
Definition aiohttp_except (e : Exn) (scrape_result : option ScrapedResponse.t)
      (w : World) : Result ScrapedResponse.t :=
    let fail msg :=
      let w := logging_error msg w in
      let w := run_on_failure scrape_result w in
      (inr (WebPageLoadError msg), w) in
    match e with
    | ClientConnectorError _ => fail ("Connection error for " ++ url ++ ": " ++ exn_str e)
    | AsyncTimeoutError _ => fail ("Timeout error for " ++ url ++ ": " ++ exn_str e)
    | AiohttpTooManyRedirects _ => fail ("Too many redirects for " ++ url ++ ": " ++ exn_str e)
    | ClientResponseError _ _ _ => fail ("HTTP error for " ++ url ++ ": " ++ exn_str e)
    | ContentTypeError m =>
        let w := logging_error m w in
        let w := run_on_failure scrape_result w in
        (inr e, w)
    | _ => fail ("Unexpected error while loading " ++ url ++ ": " ++ exn_str e)
    end.

  (** One call of the undecorated [webscrape_aiohttp] coroutine. *)
Definition webscrape_aiohttp_once (w : World) : Result ScrapedResponse.t :=
    let start_time := clock w in
    if negb (is_valid_url url) then
      (inr (InvalidURLError ("Invalid URL format: " ++ url)), w)
    else
      let w := match WebscrapeConfig.rate_limiter config with
               | Some l => limiter_wait l w
               | None => w
               end in
      (* [session = aiohttp.ClientSession(timeout=timeout_obj)] when none
         was given; [should_close_session] records it. *)
      let should_close_session := negb session_given in
      let w := if should_close_session then emit EvSessionOpen w else w in
      let '((r, scrape_result), w) := aiohttp_try_body start_time w in
      let '(r, w) :=
        match r with
        | inl sr => (inl sr, w)
        | inr e => aiohttp_except e scrape_result w
        end in
      (* finally *)
      let w := if should_close_session then emit EvSessionClose w else w in
      (r, w).
End Aiohttp.

(* ------------------------------------------------------------------ *)
(** ** [webscrape_requests.py]: one call of the undecorated function *)

Section Requests.
  Variable url : string.
  Variable expected_content_type : option string.
  Variable rate_limiter : option obj_id.

  (** [response.raise_for_status()] of requests. *)
Definition requests_raise_for_status (r : Response.t) : option Exn :=
    let st := Response.status r in
    if Z.leb 400 st && Z.ltb st 500 then
      Some (HTTPError (pretty st ++ " Client Error: " ++ Response.reason r ++ " for url: " ++ Response.url r))
    else if Z.leb 500 st && Z.ltb st 600 then
      Some (HTTPError (pretty st ++ " Server Error: " ++ Response.reason r ++ " for url: " ++ Response.url r))
    else None.

  (** The body of [with requests.Session() as session:], lines 136-174. *)
Definition requests_session_body (start_time : Q) (w : World)
      : Result ScrapedResponse.t :=
    let '(ans, w) := session_get url w in
    match ans with
    | inl (TConnect m) => (inr (RequestsConnectionError m), w)
    | inl (TTimeout m) => (inr (RequestsTimeout m), w)
    | inl (TRedirects m) => (inr (RequestsTooManyRedirects m), w)
    | inl (TOther m) => (inr (OtherException m), w)
    | inr response =>
        match requests_raise_for_status response with
        | Some e => (inr e, w)
        | None =>
            let ct := headers_get (Response.headers response) "Content-Type" in
            let ct_or_empty := match ct with Some v => v | None => "" end in
            let ct_error :=
              match expected_content_type with
              | Some et =>
                  if bool_decide (et <> "") && negb (py_in et ct_or_empty)
                  then Some (ContentTypeError ("Expected content type '" ++ et ++ "' but got '" ++ match ct with Some v => v | None => "None" end ++ "'"))
                  else None
              | None => None
              end in
            match ct_error with
            | Some e => (inr e, w)
            | None =>
                let elapsed_time := (clock w - start_time)%Q in
                let st := Response.status response in
                if bool_decide (st = 429%Z) || bool_decide (st = 503%Z) then
                  (inr (RateLimitExceededError ("Rate limit exceeded: " ++ pretty st)), w)
                else
                  (inl {|
                    ScrapedResponse.url := url;
                    ScrapedResponse.status_code := st;
                    ScrapedResponse.content := Response.content response;
                    ScrapedResponse.text := Response.text response;
                    ScrapedResponse.headers := Response.headers response;
                    ScrapedResponse.elapsed_time := elapsed_time;
                    ScrapedResponse.content_type := ct_or_empty;
                    ScrapedResponse.success := true;
                    ScrapedResponse.error := None |}, w)
            end
        end
    end.

  (** The [except] clauses, lines 176-204. *)
Definition requests_except (e : Exn) (w : World) : Result ScrapedResponse.t :=
    let fail msg := (inr (WebPageLoadError msg), logging_error msg w) in
    match e with
    | RequestsConnectionError _ => fail ("Connection error for " ++ url ++ ": " ++ exn_str e)
    | RequestsTimeout _ => fail ("Timeout error for " ++ url ++ ": " ++ exn_str e)
    | RequestsTooManyRedirects _ => fail ("Too many redirects for " ++ url ++ ": " ++ exn_str e)
    | HTTPError _ => fail ("HTTP error for " ++ url ++ ": " ++ exn_str e)
    | ContentTypeError m => (inr e, logging_error m w)
    | _ => fail ("Unexpected error while loading " ++ url ++ ": " ++ exn_str e)
    end.

  (** One call of the undecorated [webscrape_requests]. *)
Definition webscrape_requests_once (w : World) : Result ScrapedResponse.t :=
    let start_time := clock w in
    let w := match rate_limiter with
             | Some l => limiter_wait l w
             | None => w
             end in
    if negb (is_valid_url url) then
      (inr (InvalidURLError ("Invalid URL format: " ++ url)), w)
    else
      let w := emit EvSessionOpen w in
      let '(r, w) := requests_session_body start_time w in
      (* leaving the [with] block closes the session before any handler *)
      let w := emit EvSessionClose w in
      match r with
      | inl sr => (inl sr, w)
      | inr e => requests_except e w
      end.
End Requests.

(* ------------------------------------------------------------------ *)
(** ** The [backoff.on_exception] decorator (backoff 2.x)

    [retry_exception] of [backoff._sync] / [backoff._async]: the loop
    counts [tries], measures [elapsed] since the decorated call started
    before each attempt, and on an exception of the tuple gives up (and
    re-raises) when [tries == max_tries] or [elapsed >= max_time];
    otherwise it draws the next wait of [backoff.expo] ([1, 2, 4, ...]),
    applies the default [full_jitter] ([random.uniform(0, value)]), caps it
    at [max_time - elapsed], calls the [on_backoff] handlers and sleeps.
    An exception outside the tuple propagates at once.

    The loop is written by recursion on [left = max_tries - tries], so the
    test [tries == max_tries] is [left = 0]; this is the decorator's
    behaviour for [max_tries >= 1]. *)

Section Backoff.
  Context {A : Type}.
  Variable target : World -> Result A.
  Variable exception : Exn -> bool.
  Variable max_tries : nat.
  Variable max_time : Q.

Fixpoint retry_go (left tries : nat) (start : Q) (w : World) : Result A * nat :=
    let tries := S tries in
    let elapsed := (clock w - start)%Q in
    let '(r, w) := target w in
    match r with
    | inl v => ((inl v, w), tries)
    | inr e =>
        if negb (exception e) then ((inr e, w), tries)
        else
          match left with
          | O => ((inr e, emit (EvGiveup tries elapsed) w), tries)
          | S left' =>
              if Qle_bool max_time elapsed then
                ((inr e, emit (EvGiveup tries elapsed) w), tries)
              else
                let value := inject_Z (2 ^ Z.of_nat (tries - 1)) in
                let '(u, w) := draw w in
                let seconds := Qmin (value * u) (max_time - elapsed) in
                let w := emit (EvBackoff tries elapsed seconds) w in
                retry_go left' tries start (sleep seconds w)
          end
    end.

  (** The decorated call: the result, the final world and the number of
      tries. *)
Definition retry_exception (w : World) : Result A * nat :=
    retry_go (max_tries - 1) 0 (clock w) w.
End Backoff.

(** [@backoff.on_exception(backoff.expo, exception=(...),
    max_tries=Defaults.DEFAULT_MAX_RETRIES, max_time=Defaults.DEFAULT_MAX_TIME,
    on_backoff=backoff_handler_generic)] *)
Definition on_exception {A} (f : World -> Result A) (w : World) : Result A * nat :=
  retry_exception f retry_on DEFAULT_MAX_RETRIES (inject_Z DEFAULT_MAX_TIME) w.

Definition webscrape_aiohttp (url : string) (config : WebscrapeConfig.t)
    (session_given : bool) (on_success on_failure : option Callback)
    (w : World) : Result ScrapedResponse.t * nat :=
  on_exception (webscrape_aiohttp_once url config session_given on_success on_failure) w.

Definition webscrape_requests (url : string) (expected_content_type : option string)
    (rate_limiter : option obj_id) (w : World) : Result ScrapedResponse.t * nat :=
  on_exception (webscrape_requests_once url expected_content_type rate_limiter) w.

(* ------------------------------------------------------------------ *)
(** ** [processors.py]: [scrape_url_list_async]

    [asyncio.gather( *tasks, return_exceptions=True)] runs one task per URL
    and stores each task's outcome (its value, or the exception it raised)
    in the task's slot; the completion order of the tasks is the schedule
    [sched], a list of task indices.  Each task runs as one step of the
    schedule. *)

Definition task_outcome {A} (r : Result A * nat) : (A + Exn) * World :=
  fst r.

Fixpoint gather_sched {A} (tasks : list (World -> (A + Exn) * World))
    (sched : list nat) (slots : list (option (A + Exn))) (w : World)
    : list (option (A + Exn)) * World :=
  match sched with
  | [] => (slots, w)
  | i :: sched' =>
      match tasks !! i with
      | Some t => let '(o, w) := t w in gather_sched tasks sched' (<[i := Some o]> slots) w
      | None => gather_sched tasks sched' slots w
      end
  end.

(** [gather] returns once every slot is filled. *)
Fixpoint all_done {X} (slots : list (option X)) : option (list X) :=
  match slots with
  | [] => Some []
  | Some x :: s => match all_done s with Some l => Some (x :: l) | None => None end
  | None :: _ => None
  end.

Definition gather {A} (tasks : list (World -> (A + Exn) * World)) (sched : list nat)
    (w : World) : option (list (A + Exn) * World) :=
  let '(slots, w) := gather_sched tasks sched (replicate (length tasks) None) w in
  match all_done slots with Some outs => Some (outs, w) | None => None end.

(** [for i, result in enumerate(results): if isinstance(result, Exception):
    raise result] followed by [return results]. *)
Fixpoint raise_first {A} (results : list (A + Exn)) : list A + Exn :=
  match results with
  | [] => inl []
  | inr e :: _ => inr e
  | inl v :: rs => match raise_first rs with inl vs => inl (v :: vs) | inr e => inr e end
  end.

Definition scrape_tasks (url_list : list string) (config : WebscrapeConfig.t)
    (on_success on_failure : option Callback)
    : list (World -> (ScrapedResponse.t + Exn) * World) :=
  map (fun url w => task_outcome (webscrape_aiohttp url config true on_success on_failure w)) url_list.

(** [scrape_url_list_async(url_list, config, on_success, on_failure)] under
    the completion schedule [sched]; [None] when the schedule leaves a task
    unfinished (then [gather] does not return). *)
Definition scrape_url_list_async (url_list : list string) (config : WebscrapeConfig.t)
    (on_success on_failure : option Callback) (sched : list nat) (w : World)
    : option (Result (list ScrapedResponse.t)) :=
  let w := emit EvSessionOpen w in
  match gather (scrape_tasks url_list config on_success on_failure) sched w with
  | Some (results, w) => Some (raise_first results, emit EvSessionClose w)
  | None => None
  end.

(** [getattr(Defaults, name)] *)
Definition getattr_Defaults (name : string) : option PyVal :=
  snd <$> List.find (fun p => bool_decide (fst p = name)) Defaults.

(** The environment of a run of limiter calls lets time pass forward only. *)
Definition forward (step : Q * Q * Q) : Prop :=
  let '(tick, overshoot, later) := step in
  (0 <= tick)%Q /\ (0 <= overshoot)%Q /\ (0 <= later)%Q.

(** A relation between two heaps: the limiter object [l], whose
    [min_interval] is [m], has moved its [last_request_time] on by at least
    [m]. *)
Definition limiter_advances (l : obj_id) (m : Q)
    (s s' : gmap obj_id RequestRateLimiter.t) : Prop :=
  forall rl, s !! l = Some rl -> RequestRateLimiter.min_interval rl = m ->
  exists rl', s' !! l = Some rl' /\ RequestRateLimiter.min_interval rl' = m /\
    (RequestRateLimiter.last_request_time rl + m <= RequestRateLimiter.last_request_time rl')%Q.

(** One retried attempt of the backoff loop, for a call started at clock
    [start]: the attempt numbered [k] (from 0) started in [wk], [elapsed]
    seconds after the call, less than [max_time]; it failed with an
    exception of the tuple, leaving [wk']; the loop drew [u] for the jitter,
    logged the backoff and slept [seconds = min(2^k * u, max_time -
    elapsed)]; the next attempt starts in [wk1]. *)
Definition backoff_step {A} (f : World -> Result A) (exception : Exn -> bool)
    (max_time start : Q) (k : nat) (wk wk1 : World) : Prop :=
  let elapsed := (clock wk - start)%Q in
  exists e wk' u wd,
    f wk = (inr e, wk') /\ exception e = true /\ (elapsed < max_time)%Q /\
    draw wk' = (u, wd) /\
    let seconds := Qmin (inject_Z (2 ^ Z.of_nat k) * u) (max_time - elapsed) in
    wk1 = sleep seconds (emit (EvBackoff (S k) elapsed seconds) wd).

(** What a call of a function decorated by the backoff loop amounts to,
    for the result [res] of the call started in [w]: the attempts start in
    the worlds [ws ++ [wl]], the first in [w]; each attempt but the last is
    a retried one, and the world of the next attempt is the one it leaves
    after its backoff sleep ([backoff_step]); the last attempt, started in
    [wl], produced the outcome that the call returns; there are at most
    [max_tries] attempts; and when the last attempt failed with an
    exception of the tuple, the loop gave up because the tries reached
    [max_tries] or the elapsed time at the start of that attempt had
    reached [max_time]. *)
Definition backoff_contract {A} (f : World -> Result A) (exception : Exn -> bool)
    (max_tries : nat) (max_time : Q) (w : World) (res : Result A * nat) : Prop :=
  let '((r, w'), n) := res in
  exists (ws : list World) (wl wl' : World),
    n = S (length ws) /\ (n <= max_tries)%nat /\
    head (ws ++ [wl]) = Some w /\
    (forall k wk wk1, (ws ++ [wl])%list !! k = Some wk -> (ws ++ [wl])%list !! S k = Some wk1 ->
       backoff_step f exception max_time (clock w) k wk wk1) /\
    f wl = (r, wl') /\
    match r with
    | inr e =>
        if exception e
        then w' = emit (EvGiveup n (clock wl - clock w)) wl' /\
             (n = max_tries \/ (max_time <= clock wl - clock w)%Q)
        else w' = wl'
    | inl _ => w' = wl'
    end.

(** The outcome is a [RateLimitExceededError]. *)
Definition is_rate_limited {A} (r : A + Exn) : bool :=
  match r with inr (RateLimitExceededError _) => true | _ => false end.

(** The event is a call of the callback [name]. *)
Definition is_callback_event (name : string) (ev : Event) : bool :=
  match ev with EvCallback n _ => bool_decide (n = name) | _ => false end.

(** [response.headers.get('Content-Type', '')] *)
Definition content_type_of (resp : Response.t) : string :=
  match headers_get (Response.headers resp) "Content-Type" with Some v => v | None => "" end.

(* ------------------------------------------------------------------ *)
(** ** [processors.py]: [scrape_url_list_sync]

    [[webscrape_requests(url) for url in url_list]]: the fetches run one
    after the other, with the defaults of [webscrape_requests], and the
    first exception leaves the comprehension. *)

Fixpoint scrape_url_list_sync (url_list : list string) (w : World)
    : Result (list ScrapedResponse.t) :=
  match url_list with
  | [] => (inl [], w)
  | url :: rest =>
      let '((r, w), _) := webscrape_requests url None None w in
      match r with
      | inr e => (inr e, w)
      | inl sr =>
          let '(rs, w) := scrape_url_list_sync rest w in
          (match rs with inl l => inl (sr :: l) | inr e => inr e end, w)
      end
  end.

(* ------------------------------------------------------------------ *)
(** ** Helpers on URLs and logs *)

(** A character that [urlsplit] keeps inside a netloc that it accepts
    without the IPv6 bracket checks: not one of ["/?#"] (which end the
    netloc), not a bracket, and not one of the bytes it deletes. *)
Definition plain_netloc_char (c : ascii) : bool :=
  negb (bool_decide (c = "/"%char) || bool_decide (c = "?"%char)
        || bool_decide (c = "#"%char) || bool_decide (c = "["%char)
        || bool_decide (c = "]"%char) || unsafe_url_byte c).

(** The text after a netloc: empty, or starting with one of ["/?#"]. *)
Definition ends_netloc (s : list ascii) : bool :=
  match s with
  | [] => true
  | c :: _ => bool_decide (c = "/"%char) || bool_decide (c = "?"%char)
              || bool_decide (c = "#"%char)
  end.

(** The string [urlsplit] works on: leading C0 controls and spaces
    stripped, then the bytes [\t\r\n] deleted. *)
Definition url_cleaned (url : string) : list ascii :=
  filter (fun c => negb (unsafe_url_byte c)) (lstrip_c0 (list_ascii_of_string url)).

Definition count_events (p : Event -> bool) (w : World) : nat :=
  length (List.filter p (log w)).

Definition is_session_open (ev : Event) : bool :=
  match ev with EvSessionOpen => true | _ => false end.

Definition is_session_close (ev : Event) : bool :=
  match ev with EvSessionClose => true | _ => false end.

(* ------------------------------------------------------------------ *)
(** ** [modules/check_connectivity.py]

    Each probe of the network is an oracle answer per host and attempt:
    the call returned ([POk]), raised an exception of the class the method
    catches, with its [str] ([PCaught]), or raised another exception
    ([PRaise]).  The threads of a [ThreadPoolExecutor] block hand their
    results to the loop over [as_completed(futures)] in a completion order,
    a list of indices into the submitted hosts. *)

Module Connectivity.

Inductive Probe := POk | PCaught (msg : string) | PRaise (exn : string).

Inductive Exc :=
| ValueError (msg : string)
| TypeError (msg : string)
| Raised (exn : string).

(** The keys of [DEFAULT_CONFIG]. *)
Record Config := mkConfig {
  timeout : Z;
  retry_count : Z;
  retry_delay : Z;
  reliable_hosts : list string;
  http_endpoints : list string;
  dns_hosts : list string;
  socket_port : Z
}.

Definition DEFAULT_CONFIG : Config := {|
  timeout := 5; retry_count := 2; retry_delay := 1;
  reliable_hosts := ["1.1.1.1"; "8.8.8.8"; "208.67.222.222"];
  http_endpoints := ["https://www.google.com"; "https://www.cloudflare.com"; "https://www.amazon.com"];
  dns_hosts := ["google.com"; "cloudflare.com"; "microsoft.com"];
  socket_port := 53 |}.

(** An entry of the [config] dict given to the constructor. *)
Inductive Item :=
| ITimeout (z : Z)
| IRetryCount (z : Z)
| IRetryDelay (z : Z)
| IReliableHosts (l : list string)
| IHttpEndpoints (l : list string)
| IDnsHosts (l : list string)
| ISocketPort (z : Z).

Definition set_item (c : Config) (i : Item) : Config :=
  match i with
  | ITimeout z => {| timeout := z; retry_count := retry_count c; retry_delay := retry_delay c;
      reliable_hosts := reliable_hosts c; http_endpoints := http_endpoints c;
      dns_hosts := dns_hosts c; socket_port := socket_port c |}
  | IRetryCount z => {| timeout := timeout c; retry_count := z; retry_delay := retry_delay c;
      reliable_hosts := reliable_hosts c; http_endpoints := http_endpoints c;
      dns_hosts := dns_hosts c; socket_port := socket_port c |}
  | IRetryDelay z => {| timeout := timeout c; retry_count := retry_count c; retry_delay := z;
      reliable_hosts := reliable_hosts c; http_endpoints := http_endpoints c;
      dns_hosts := dns_hosts c; socket_port := socket_port c |}
  | IReliableHosts l => {| timeout := timeout c; retry_count := retry_count c; retry_delay := retry_delay c;
      reliable_hosts := l; http_endpoints := http_endpoints c;
      dns_hosts := dns_hosts c; socket_port := socket_port c |}
  | IHttpEndpoints l => {| timeout := timeout c; retry_count := retry_count c; retry_delay := retry_delay c;
      reliable_hosts := reliable_hosts c; http_endpoints := l;
      dns_hosts := dns_hosts c; socket_port := socket_port c |}
  | IDnsHosts l => {| timeout := timeout c; retry_count := retry_count c; retry_delay := retry_delay c;
      reliable_hosts := reliable_hosts c; http_endpoints := http_endpoints c;
      dns_hosts := l; socket_port := socket_port c |}
  | ISocketPort z => {| timeout := timeout c; retry_count := retry_count c; retry_delay := retry_delay c;
      reliable_hosts := reliable_hosts c; http_endpoints := http_endpoints c;
      dns_hosts := dns_hosts c; socket_port := z |}
  end.

(** The probes: [socket.create_connection((host, port), timeout)],
    [socket.gethostbyname(hostname)], [session.head(url, timeout)] followed
    by [raise_for_status()], and [urllib.request.urlopen(...)], for the
    [n]-th attempt. *)
Record Net := mkNet {
  socket_probe : string -> nat -> Probe;
  dns_probe : string -> nat -> Probe;
  http_probe : string -> nat -> Probe;
  urllib_probe : nat -> Probe
}.

(** A line given to the logger: level and message. *)
Definition LogLine := (string * string)%type.

(** A [(host, success, error)] tuple. *)
Definition Check := (string * bool * string)%type.

Definition newline : string := String "010"%char EmptyString.

(** [str.upper()] on ASCII. *)
Definition upper (s : string) : string :=
  string_of_list_ascii (map (fun c =>
    let n := nat_of_ascii c in
    if Nat.leb 97 n && Nat.leb n 122 then ascii_of_nat (n - 32) else c)
    (list_ascii_of_string s)).

Module InternetConnectivityChecker.

(** [__init__(self, config)]: [DEFAULT_CONFIG.copy()] updated with the
    entries of [config]; [self.timeout], [self.retry_count] and
    [self.retry_delay] are read from it. *)
Definition init (config : list Item) : Config :=
  fold_left set_item config DEFAULT_CONFIG.

(** The loop [for attempt in range(self.retry_count + 1)] that the four
    [_check_*] methods share, from [attempt] on with [k] iterations left.
    Returns [Some (success, error_msg)], or [None] when the loop ends
    without a [return], and the durations given to [time.sleep]. *)
Fixpoint retry_loop (probe : nat -> Probe) (retry_count retry_delay : Z)
    (attempt k : nat) : (option (bool * string) + Exc) * list Z :=
  match k with
  | O => (inl None, [])
  | S k' =>
      match probe attempt with
      | POk => (inl (Some (true, "")), [])
      | PRaise e => (inr (Raised e), [])
      | PCaught error_msg =>
          if Z.ltb (Z.of_nat attempt) retry_count then
            let '(r, sleeps) := retry_loop probe retry_count retry_delay (S attempt) k' in
            (r, retry_delay :: sleeps)
          else (inl (Some (false, error_msg)), [])
      end
  end.

Definition check_loop (c : Config) (probe : nat -> Probe) : (option (bool * string) + Exc) * list Z :=
  retry_loop probe (retry_count c) (retry_delay c) 0 (Z.to_nat (retry_count c + 1)).

Definition with_host (host : string) (r : (option (bool * string) + Exc) * list Z)
    : (option Check + Exc) * list Z :=
  let '(o, sleeps) := r in
  (match o with
   | inl (Some (ok, msg)) => inl (Some (host, ok, msg))
   | inl None => inl None
   | inr e => inr e
   end, sleeps).

(** [_check_socket_connection(self, host)] *)
Definition check_socket_connection (c : Config) (n : Net) (host : string) :=
  with_host host (check_loop c (socket_probe n host)).

(** [_check_dns_resolution(self, hostname)] *)
Definition check_dns_resolution (c : Config) (n : Net) (hostname : string) :=
  with_host hostname (check_loop c (dns_probe n hostname)).

(** [_check_http_connection(self, url)] *)
Definition check_http_connection (c : Config) (n : Net) (url : string) :=
  with_host url (check_loop c (http_probe n url)).

(** [_check_urllib_connection(self)] *)
Definition check_urllib_connection (c : Config) (n : Net) :=
  check_loop c (urllib_probe n).

Definition unpack_none : Exc := TypeError "cannot unpack non-iterable NoneType object".

(** The loop [for future in as_completed(futures)] of one block of
    [is_connected], over the completion order [order]: [host, success,
    error = future.result()], then the append to [results[...]], to
    [checks], or the debug line [what host error]. *)
Fixpoint collect (check : string -> (option Check + Exc) * list Z)
    (what : string -> string -> string) (verbose : bool) (hosts : list string)
    (order : list nat) (res : list Check) (checks : list bool) (logs : list LogLine)
    : ((list Check * list bool) + Exc) * list LogLine :=
  match order with
  | [] => (inl (res, checks), logs)
  | i :: order' =>
      match hosts !! i with
      | None => collect check what verbose hosts order' res checks logs
      | Some host =>
          match fst (check host) with
          | inr e => (inr e, logs)
          | inl None => (inr unpack_none, logs)
          | inl (Some (h, success, error)) =>
              let res := app res [(h, success, error)] in
              if success then collect check what verbose hosts order' res (app checks [true]) logs
              else collect check what verbose hosts order' res checks
                     (if verbose then app logs [("DEBUG", what h error)] else logs)
          end
      end
  end.

(** [with ThreadPoolExecutor(max_workers=min(4, len(hosts))) as executor:]
    and its loop; the executor refuses [max_workers <= 0]. *)
Definition stage (check : string -> (option Check + Exc) * list Z)
    (what : string -> string -> string) (verbose : bool) (hosts : list string)
    (order : list nat) (checks : list bool) (logs : list LogLine)
    : ((list Check * list bool) + Exc) * list LogLine :=
  if bool_decide (Z.min 4 (Z.of_nat (length hosts)) <= 0)%Z
  then (inr (ValueError "max_workers must be greater than 0"), logs)
  else collect check what verbose hosts order [] checks logs.

(** [_print_results(self, results)] *)
Definition print_results (results : list (string * list Check)) : list LogLine :=
  ("INFO", "=== Connectivity Check Results ===") ::
  concat (map (fun (entry : string * list Check) =>
    let '(check_type, checks) := entry in
    match checks with
    | [] => []
    | _ => ("INFO", newline ++ upper check_type ++ " Checks:") ::
           concat (map (fun (chk : Check) =>
             let '(host, success, error) := chk in
             ("INFO", "  " ++ host ++ ": " ++ (if success then "SUCCESS" else "FAILED")) ::
             (if success then [] else [("DEBUG", "    Error: " ++ error)])) checks)
    end) results).

Definition socket_failed (host error : string) : string :=
  "Socket connection to " ++ host ++ " failed: " ++ error.
Definition dns_failed (host error : string) : string :=
  "DNS resolution for " ++ host ++ " failed: " ++ error.
Definition http_failed (url error : string) : string :=
  "HTTP connection to " ++ url ++ " failed: " ++ error.

(** [is_connected(self, verbose)], with the completion orders of its three
    executor blocks. *)
Definition is_connected (c : Config) (n : Net) (verbose : bool) (o1 o2 o3 : list nat)
    : (bool + Exc) * list LogLine :=
  match stage (check_socket_connection c n) socket_failed verbose (reliable_hosts c) o1 [] [] with
  | (inr e, logs) => (inr e, logs)
  | (inl (rs_socket, checks), logs) =>
  match (if negb (existsb id checks)
         then stage (check_dns_resolution c n) dns_failed verbose (dns_hosts c) o2 checks logs
         else (inl ([], checks), logs)) with
  | (inr e, logs) => (inr e, logs)
  | (inl (rs_dns, checks), logs) =>
  match (if negb (existsb id checks)
         then stage (check_http_connection c n) http_failed verbose (http_endpoints c) o3 checks logs
         else (inl ([], checks), logs)) with
  | (inr e, logs) => (inr e, logs)
  | (inl (rs_http, checks), logs) =>
  let last_resort :=
    if negb (existsb id checks) then
      match fst (check_urllib_connection c n) with
      | inr e => inr e
      | inl None => inr unpack_none
      | inl (Some (success, error)) =>
          if success then inl (app checks [true], logs)
          else inl (checks, if verbose then app logs [("DEBUG", "Urllib connection failed: " ++ error)] else logs)
      end
    else inl (checks, logs) in
  match last_resort with
  | inr e => (inr e, logs)
  | inl (checks, logs) =>
      let logs := if verbose
                  then app logs (print_results [("socket", rs_socket); ("dns", rs_dns); ("http", rs_http)])
                  else logs in
      (inl (existsb id checks), logs)
  end
  end
  end
  end.

(** An entry of [results["socket_checks"]] and the like: its key for the
    name ("host" or "url"), the name, "success" and "error". *)
Record Entry := mkEntry { key : string; name : string; success : bool; error : string }.

Record Details := mkDetails {
  connected : bool;
  socket_checks : list Entry;
  dns_checks : list Entry;
  http_checks : list Entry
}.

(** One [for] loop of [get_connection_details]. *)
Fixpoint details_loop (check : string -> (option Check + Exc) * list Z) (key : string)
    (hosts : list string) (acc : list Entry) (connected : bool) (sleeps : list Z)
    : ((list Entry * bool) + Exc) * list Z :=
  match hosts with
  | [] => (inl (acc, connected), sleeps)
  | host :: hosts' =>
      let '(r, sl) := check host in
      match r with
      | inr e => (inr e, app sleeps sl)
      | inl None => (inr unpack_none, app sleeps sl)
      | inl (Some (h, success, error)) =>
          details_loop check key hosts'
            (app acc [mkEntry key h success (if negb success then error else "")])
            (connected || success) (app sleeps sl)
      end
  end.

(** [get_connection_details(self)]: the result and the durations given to
    [time.sleep], in order. *)
Definition get_connection_details (c : Config) (n : Net) : (Details + Exc) * list Z :=
  match details_loop (check_socket_connection c n) "host" (reliable_hosts c) [] false [] with
  | (inr e, sl) => (inr e, sl)
  | (inl (socket_checks, connected), sl) =>
  match (if negb connected
         then details_loop (check_dns_resolution c n) "host" (dns_hosts c) [] connected sl
         else (inl ([], connected), sl)) with
  | (inr e, sl) => (inr e, sl)
  | (inl (dns_checks, connected), sl) =>
  match (if negb connected
         then details_loop (check_http_connection c n) "url" (http_endpoints c) [] connected sl
         else (inl ([], connected), sl)) with
  | (inr e, sl) => (inr e, sl)
  | (inl (http_checks, connected), sl) =>
      (inl {| connected := connected; socket_checks := socket_checks;
              dns_checks := dns_checks; http_checks := http_checks |}, sl)
  end
  end
  end.

(** Each entry of a [results] list: its key is [k], and a successful
    check has an empty error. *)
Definition entries_ok (k : string) (l : list Entry) : Prop :=
  Forall (fun e => key e = k /\ (success e = true -> error e = "")) l.

End InternetConnectivityChecker.

(** The module function [is_connected(timeout, verbose)]. *)
Definition is_connected (timeout : Z) (verbose : bool) (n : Net) (o1 o2 o3 : list nat)
    : (bool + Exc) * list LogLine :=
  InternetConnectivityChecker.is_connected
    (InternetConnectivityChecker.init [ITimeout timeout]) n verbose o1 o2 o3.

End Connectivity.

(** The content-type test of both fetches passed: no expected type, an
    empty one (falsy), or one found in the [Content-Type] value. *)
Definition content_type_ok (expected : option string) (content_type : string) : Prop :=
  match expected with
  | Some et => et = "" \/ py_in et content_type = true
  | None => True
  end.

(* ------------------------------------------------------------------ *)
(** ** Concrete inputs *)

(** Ten calls with no time passing in between. *)
Definition ten_back_to_back : list (Q * Q * Q) := repeat (0%Q, 0%Q, 0%Q) 10.

(** Fixed answers for the concrete runs.  Their [Response.url] is read only
    by requests' [raise_for_status]: it is the one requests reports for
    [http://a.com], the URL of the runs where that happens. *)
Definition resp_html : Response.t := {|
  Response.status := 200; Response.reason := "OK";
  Response.headers := [("Content-Type", "text/html; charset=utf-8")];
  Response.content := "<html></html>"; Response.text := "<html></html>";
  Response.text_decodes := true; Response.url := "http://a.com/" |}.

Definition resp_with (status : Z) (reason content_type : string) : Response.t := {|
  Response.status := status; Response.reason := reason;
  Response.headers := [("Content-Type", content_type)];
  Response.content := "{}"; Response.text := "{}";
  Response.text_decodes := true; Response.url := "http://a.com/" |}.

(** A world whose network answers every request with [ans] after one
    second, whose random draws are all [1/2], at time [t0], with the heap
    [s]. *)
Definition world_with (s : gmap obj_id RequestRateLimiter.t) (t0 : Q)
    (ans : TransportError + Response.t) : World := {|
  store := s; clock := t0; log := [];
  net := fun _ _ => (1%Q, ans); net_calls := 0;
  draws := fun _ => (1 # 2)%Q; draw_count := 0 |}.

(** The same world with a server that takes [100] s to answer. *)
Definition slow_world (ans : TransportError + Response.t) : World := {|
  store := ∅; clock := 0; log := [];
  net := fun _ _ => (100%Q, ans); net_calls := 0;
  draws := fun _ => (1 # 2)%Q; draw_count := 0 |}.

(** [WebscrapeConfig(expected_content_type=et, rate_limiter=rl)] *)
Definition config_with (et : option string) (rl : option obj_id) : WebscrapeConfig.t := {|
  WebscrapeConfig.custom_headers := None; WebscrapeConfig.params := None;
  WebscrapeConfig.cookies := None; WebscrapeConfig.timeout := DEFAULT_REQ_TIMEOUT;
  WebscrapeConfig.allow_redirects := true; WebscrapeConfig.verify_ssl := true;
  WebscrapeConfig.expected_content_type := et; WebscrapeConfig.proxy := None;
  WebscrapeConfig.rate_limiter := rl |}.

(* ================================================================== *)
(** * Properties *)

(* ------------------------------------------------------------------ *)
(** ** Rate limiter *)

Module RateLimiterFacts.
  Import RequestRateLimiter.
  Local Open Scope Q_scope.

Lemma wait_min_interval self c o l : min_interval (fst (wait self c o l)) = min_interval self.
  Proof. reflexivity. Qed.

Lemma wait_gap self c o l :
    0 <= o -> 0 <= l ->
    last_request_time self + min_interval self <= last_request_time (fst (wait self c o l)).
  Proof.
    intros Ho Hl. unfold wait; simpl.
    destruct (Qlt_le_dec (c - last_request_time self) (min_interval self)); simpl; lra.
  Qed.

Lemma wait_seq_cons self c tick o l env :
    wait_seq self c ((tick, o, l) :: env)
    = last_request_time (fst (wait self (c + tick) o l))
        :: wait_seq (fst (wait self (c + tick) o l)) (snd (wait self (c + tick) o l)) env.
  Proof. simpl. destruct (wait self (c + tick) o l); reflexivity. Qed.

Lemma wait_seq_head self c env x rest :
    Forall forward env -> wait_seq self c env = x :: rest ->
    last_request_time self + min_interval self <= x.
  Proof.
    intros Hf Hs. destruct env as [|[[tick o] l] env]; [discriminate|].
    rewrite wait_seq_cons in Hs. injection Hs as <- _.
    inversion Hf as [|? ? Hst _]; subst. destruct Hst as (_ & Ho & Hl).
    by apply wait_gap.
  Qed.

Lemma wait_seq_gaps env : forall self c i a b,
    Forall forward env ->
    wait_seq self c env !! i = Some a -> wait_seq self c env !! S i = Some b ->
    a + min_interval self <= b.
  Proof.
    induction env as [|[[tick o] l] env IH]; intros self c i a b Hf Ha Hb;
      [discriminate|].
    inversion Hf as [|? ? Hstep Hf']; subst.
    destruct Hstep as (_ & Ho & Hl).
    rewrite wait_seq_cons in Ha, Hb.
    pose proof (wait_min_interval self (c + tick) o l) as Hmi.
    pose proof (wait_gap self (c + tick) o l Ho Hl) as Hgap.
    set (r := wait self (c + tick) o l) in *. clearbody r.
    destruct i as [|i]; simpl in Ha, Hb.
    - injection Ha as <-.
      destruct (wait_seq _ _ env) as [|x rest] eqn:E; [discriminate|].
      injection Hb as <-.
      pose proof (wait_seq_head _ _ _ _ _ Hf' E) as H. rewrite Hmi in H. exact H.
    - pose proof (IH _ _ _ _ _ Hf' Ha Hb) as H. rewrite Hmi in H. exact H.
  Qed.

Lemma wait_seq_span env self c a :
    Forall forward env -> wait_seq self c env !! 0%nat = Some a ->
    forall n b, wait_seq self c env !! n = Some b ->
    a + inject_Z (Z.of_nat n) * min_interval self <= b.
  Proof.
    intros Hf Ha n. induction n as [|n IHn]; intros b Hb.
    - rewrite Ha in Hb. injection Hb as <-.
      change (inject_Z (Z.of_nat 0)) with 0. rewrite Qmult_0_l. lra.
    - destruct (wait_seq self c env !! n) as [m|] eqn:Hm.
      + pose proof (IHn m eq_refl) as H1.
        pose proof (wait_seq_gaps _ _ _ _ _ _ Hf Hm Hb) as H2.
        rewrite Nat2Z.inj_succ, <- Z.add_1_r, inject_Z_plus, Qmult_plus_distr_l.
        change (inject_Z 1) with 1. rewrite Qmult_1_l.
        set (k := inject_Z (Z.of_nat n) * min_interval self) in *. lra.
      + apply lookup_lt_Some in Hb. apply lookup_ge_None in Hm. lia.
  Qed.
End RateLimiterFacts.

Lemma ten_back_to_back_forward : Forall forward ten_back_to_back.
Proof. repeat constructor; apply Qle_refl. Qed.

(** C6: on one [RequestRateLimiter] instance with [min_interval = 1/rps],
    in any run of consecutive [wait()] / [wait_async()] calls where time
    only moves forward, consecutive values of [last_request_time] are at
    least [1/rps] apart, and the [n]-th update is at least [n/rps] after the
    first. *)
Theorem C6_rate_limiter_gap (rps last0 clock0 : Q) (env : list (Q * Q * Q)) :
  Forall forward env ->
  let ts := RequestRateLimiter.wait_seq (RequestRateLimiter.mk (1 / rps) last0) clock0 env in
  (forall i a b, ts !! i = Some a -> ts !! S i = Some b -> (a + 1 / rps <= b)%Q) /\
  (forall n a b, ts !! 0%nat = Some a -> ts !! n = Some b ->
     (a + inject_Z (Z.of_nat n) * (1 / rps) <= b)%Q).
Proof.
  intros Hf ts. split.
  - intros i a b Ha Hb. exact (RateLimiterFacts.wait_seq_gaps _ _ _ _ _ _ Hf Ha Hb).
  - intros n a b Ha Hb. exact (RateLimiterFacts.wait_seq_span _ _ _ _ Hf Ha n b Hb).
Qed.

(** With [requests_per_second = 5], ten back-to-back calls: the updates are
    [0.2s] apart and the tenth is [1.8s] after the first. *)
Lemma C6_rate_limiter_gap_witness :
  Forall forward ten_back_to_back /\
  (forall a b,
     RequestRateLimiter.wait_seq (RequestRateLimiter.init 5) 0 ten_back_to_back !! 0%nat = Some a ->
     RequestRateLimiter.wait_seq (RequestRateLimiter.init 5) 0 ten_back_to_back !! 9%nat = Some b ->
     (a + (9 # 5) <= b)%Q).
Proof.
  split; [exact ten_back_to_back_forward|].
  intros a b Ha Hb.
  exact (proj2 (C6_rate_limiter_gap 5 0 0 ten_back_to_back ten_back_to_back_forward) 9%nat a b Ha Hb).
Defined.

(* ------------------------------------------------------------------ *)
(** ** Defaults *)

(** C9 (refuted): [Defaults] has no attribute holding 5; the only
    requests-per-second preset is [DEFAULT_RPS_LIMIT = 250], which is also
    the default of [RequestRateLimiter()]. *)
Lemma C9_no_rps_5_preset :
  ~ (exists name, getattr_Defaults name = Some (VInt 5)) /\
  getattr_Defaults "DEFAULT_RPS_LIMIT" = Some (VInt 250) /\
  (RequestRateLimiter.min_interval RequestRateLimiter.init_default == 1 # 250)%Q.
Proof.
  split; [|split; [reflexivity|reflexivity]].
  intros [name H]. unfold getattr_Defaults in H. simpl in H.
  repeat (case_bool_decide; simpl in H).
  all: vm_compute in H; discriminate.
Qed.

(** C9 (as amended): the defaults are a request timeout of 30 seconds, one
    rate preset [DEFAULT_RPS_LIMIT = 250] (the default of
    [RequestRateLimiter()]), at most 3 tries and 90 seconds in the retry
    decorators, and the literal browser header set, written identically in
    [Defaults.DEFAULT_HTTP_HEADERS] and inline in [webscrape_requests]. *)
Theorem C9_defaults_values :
  getattr_Defaults "DEFAULT_REQ_TIMEOUT" = Some (VInt 30) /\
  WebscrapeConfig.timeout (WebscrapeConfig.defaults 0) = 30%Z /\
  getattr_Defaults "DEFAULT_RPS_LIMIT" = Some (VInt 250) /\
  RequestRateLimiter.init_default = RequestRateLimiter.init 250 /\
  getattr_Defaults "DEFAULT_MAX_RETRIES" = Some (VInt 3) /\
  getattr_Defaults "DEFAULT_MAX_TIME" = Some (VInt 90) /\
  (forall A (f : World -> Result A) w,
     on_exception f w = retry_exception f retry_on 3 90 w) /\
  getattr_Defaults "DEFAULT_HTTP_HEADERS" = Some (VDict [
    ("User-Agent", "Mozilla/5.0 (Windows NT 10.0; Win64; x64) AppleWebKit/537.36 (KHTML, like Gecko) Chrome/91.0.4472.124 Safari/537.36");
    ("Accept", "text/html,application/xhtml+xml,application/xml;q=0.9,image/webp,*/*;q=0.8");
    ("Accept-Language", "en-US,en;q=0.5");
    ("Connection", "keep-alive");
    ("Upgrade-Insecure-Requests", "1");
    ("Cache-Control", "max-age=0")]) /\
  webscrape_requests_inline_headers = DEFAULT_HTTP_HEADERS.
Proof. repeat split; reflexivity. Qed.

(* ------------------------------------------------------------------ *)
(** ** The heap of limiters across a fetch *)

Module StoreFacts.
  Local Open Scope Q_scope.

Lemma emit_store ev w : store (emit ev w) = store w.
  Proof. reflexivity. Qed.

Lemma sleep_store s w : store (sleep s w) = store w.
  Proof. reflexivity. Qed.

Lemma draw_store w : store (snd (draw w)) = store w.
  Proof. reflexivity. Qed.

Lemma session_get_store url w : store (snd (session_get url w)) = store w.
  Proof. unfold session_get. destruct (net w (net_calls w) url). reflexivity. Qed.

Lemma run_on_failure_store of sr w : store (run_on_failure of sr w) = store w.
  Proof. unfold run_on_failure. repeat case_match; simplify_eq; reflexivity. Qed.

Lemma aiohttp_try_body_store url config os st w :
    store (snd (aiohttp_try_body url config os st w)) = store w.
  Proof.
    unfold aiohttp_try_body. pose proof (session_get_store url w) as Hs.
    destruct (session_get url w) as [ans w1]. simpl in Hs.
    destruct ans as [[m|m|m|m]|resp]; try exact Hs.
    repeat case_match; simplify_eq; simpl; try congruence.
  Qed.

Lemma aiohttp_except_store url of e sr w :
    store (snd (aiohttp_except url of e sr w)) = store w.
  Proof. unfold aiohttp_except. destruct e; simpl; rewrite run_on_failure_store; reflexivity. Qed.

  (** One attempt of [webscrape_aiohttp] on a valid URL touches the heap only
      through the configured limiter's [wait_async]. *)
Lemma aiohttp_once_store url config sg os of w :
    is_valid_url url = true ->
    store (snd (webscrape_aiohttp_once url config sg os of w))
    = store (match WebscrapeConfig.rate_limiter config with
             | Some l => limiter_wait l w
             | None => w
             end).
  Proof.
    intros Hv. unfold webscrape_aiohttp_once. rewrite Hv. simpl.
    set (w1 := match WebscrapeConfig.rate_limiter config with
               | Some l => limiter_wait l w | None => w end).
    set (w2 := if negb sg then emit EvSessionOpen w1 else w1).
    assert (store w2 = store w1) as E2 by (unfold w2; destruct sg; reflexivity).
    pose proof (aiohttp_try_body_store url config os (clock w) w2) as E3.
    destruct (aiohttp_try_body url config os (clock w) w2) as [[r sr] w3].
    simpl in E3.
    destruct r as [v|e]; simpl.
    - destruct sg; simpl; congruence.
    - pose proof (aiohttp_except_store url of e sr w3) as E4.
      destruct (aiohttp_except url of e sr w3) as [r4 w4]. simpl in E4.
      destruct sg; simpl; congruence.
  Qed.

  (** The backoff loop changes the heap only through its attempts. *)
  Section RetryStore.
    Context {A : Type}.
    Variable target : World -> Result A.
    Variable exception : Exn -> bool.
    Variable max_time : Q.
    Variable R : gmap obj_id RequestRateLimiter.t -> gmap obj_id RequestRateLimiter.t -> Prop.
    Hypothesis R_trans : forall a b c, R a b -> R b c -> R a c.
    Hypothesis R_target : forall w, R (store w) (store (snd (target w))).

Lemma retry_go_store left : forall tries start w,
      R (store w) (store (snd (fst (retry_go target exception max_time left tries start w)))).
    Proof.
      induction left as [|left IH]; intros tries start w; simpl;
        pose proof (R_target w) as Ht; destruct (target w) as [[v|e] w1]; simpl in *;
        try exact Ht.
      - destruct (exception e); exact Ht.
      - destruct (exception e); simpl; [|exact Ht].
        destruct (Qle_bool max_time (clock w - start)); [exact Ht|].
        eapply R_trans; [exact Ht|].
        match goal with |- context [retry_go _ _ _ left ?t ?s ?w'] => exact (IH t s w') end.
    Qed.
  End RetryStore.
End StoreFacts.

Module SharedLimiter.
  Local Open Scope Q_scope.

Lemma limiter_advances_trans l m :
    0 <= m -> forall a b c, limiter_advances l m a b -> limiter_advances l m b c ->
    limiter_advances l m a c.
  Proof.
    intros Hm a b c Hab Hbc rl Ha Hrl.
    destruct (Hab rl Ha Hrl) as (rl1 & Hb & Hm1 & H1).
    destruct (Hbc rl1 Hb Hm1) as (rl2 & Hc & Hm2 & H2).
    exists rl2. repeat split; [exact Hc|exact Hm2|lra].
  Qed.

Lemma limiter_wait_advances l m w :
    limiter_advances l m (store w) (store (limiter_wait l w)).
  Proof.
    intros rl Hrl Hm. unfold limiter_wait. rewrite Hrl.
    pose proof (RateLimiterFacts.wait_gap rl (clock w) 0 0 (Qle_refl 0) (Qle_refl 0)) as Hg.
    pose proof (RateLimiterFacts.wait_min_interval rl (clock w) 0 0) as Hmi.
    destruct (RequestRateLimiter.wait rl (clock w) 0 0) as [rl' now]. simpl in *.
    exists rl'. split; [apply lookup_insert_eq|]. split; [congruence|].
    rewrite <- Hm. exact Hg.
  Qed.

  (** Every attempt of a fetch with the configuration [WebscrapeConfig.defaults l]
      on a valid URL waits on the limiter object [l]. *)
Lemma aiohttp_once_default_advances url l m sg os of w :
    is_valid_url url = true ->
    limiter_advances l m (store w)
      (store (snd (webscrape_aiohttp_once url (WebscrapeConfig.defaults l) sg os of w))).
  Proof.
    intros Hv. rewrite (StoreFacts.aiohttp_once_store _ _ _ _ _ _ Hv). simpl.
    apply limiter_wait_advances.
  Qed.
End SharedLimiter.

(** C10: importing [classes.py] creates one [RequestRateLimiter()] (at the
    default [DEFAULT_RPS_LIMIT]) in the heap, the object [l0] that every
    default [WebscrapeConfig] refers to; a [webscrape_aiohttp] call on a
    valid URL with that default configuration waits on [l0] and leaves its
    [last_request_time] at least [1/250] s later, in the very object the
    next default-configuration call reads. *)
Theorem C10_default_limiter_shared (w : World) :
  let '(l0, w1) := import_classes w in
  store w1 !! l0 = Some RequestRateLimiter.init_default /\
  WebscrapeConfig.rate_limiter (WebscrapeConfig.defaults l0) = Some l0 /\
  (forall url sg os of w2 rl,
     is_valid_url url = true ->
     store w2 !! l0 = Some rl ->
     RequestRateLimiter.min_interval rl = (1 # 250)%Q ->
     exists rl',
       store (snd (fst (webscrape_aiohttp url (WebscrapeConfig.defaults l0) sg os of w2))) !! l0
         = Some rl' /\
       RequestRateLimiter.min_interval rl' = (1 # 250)%Q /\
       (RequestRateLimiter.last_request_time rl + (1 # 250) <= RequestRateLimiter.last_request_time rl')%Q).
Proof.
  unfold import_classes, alloc. simpl. split; [apply lookup_insert_eq|]. split; [reflexivity|].
  intros url sg os of w2 rl Hv Hrl Hm.
  set (l0 := fresh (dom (store w))).
  refine (StoreFacts.retry_go_store _ _ _ (limiter_advances l0 (1 # 250))
            (SharedLimiter.limiter_advances_trans l0 (1 # 250) ltac:(discriminate))
            _ _ _ _ _ _ Hrl Hm).
  intros w'. apply SharedLimiter.aiohttp_once_default_advances, Hv.
Qed.

Lemma C10_default_limiter_shared_witness :
  exists rl',
    store (snd (fst (webscrape_aiohttp "http://a.com" (WebscrapeConfig.defaults 0) false None None
                       (snd (import_classes (world_with ∅ 0 (inr resp_html))))))) !! 0 = Some rl' /\
    RequestRateLimiter.min_interval rl' = (1 # 250)%Q /\
    (0 + (1 # 250) <= RequestRateLimiter.last_request_time rl')%Q.
Proof.
  pose proof (C10_default_limiter_shared (world_with ∅ 0 (inr resp_html))) as H.
  change (import_classes (world_with ∅ 0 (inr resp_html)))
    with (0, snd (import_classes (world_with ∅ 0 (inr resp_html)))) in H.
  destruct H as (H1 & _ & H2).
  exact (H2 "http://a.com" false None None _ _ eq_refl H1 eq_refl).
Defined.

(* ------------------------------------------------------------------ *)
(** ** The validation gate *)

Module Validation.
  (** A failed attempt with an exception outside the tuple ends the
      decorated call after that attempt. *)
Lemma retry_go_not_retried {A} (target : World -> Result A) exception max_time left tries start w e w' :
    target w = (inr e, w') -> exception e = false ->
    retry_go target exception max_time left tries start w = ((inr e, w'), S tries).
  Proof. intros Ht He. destruct left; simpl; rewrite Ht, He; reflexivity. Qed.

Lemma retry_go_success {A} (target : World -> Result A) exception max_time left tries start w v w' :
    target w = (inl v, w') ->
    retry_go target exception max_time left tries start w = ((inl v, w'), S tries).
  Proof. intros Ht. destruct left; simpl; rewrite Ht; reflexivity. Qed.

  (** [webscrape_aiohttp] on an invalid URL: [InvalidURLError] after one
      try, with the world untouched (no network call, no limiter wait, no
      sleep, no log line). *)
Lemma aiohttp_invalid_url url config sg os of w :
    is_valid_url url = false ->
    webscrape_aiohttp url config sg os of w
    = ((inr (InvalidURLError ("Invalid URL format: " ++ url)), w), 1%nat).
  Proof.
    intros Hv. unfold webscrape_aiohttp, on_exception, retry_exception.
    apply retry_go_not_retried; [|reflexivity].
    unfold webscrape_aiohttp_once. rewrite Hv. reflexivity.
  Qed.

  (** [webscrape_requests] without a limiter behaves the same way. *)
Lemma requests_invalid_url_no_limiter url ect w :
    is_valid_url url = false ->
    webscrape_requests url ect None w
    = ((inr (InvalidURLError ("Invalid URL format: " ++ url)), w), 1%nat).
  Proof.
    intros Hv. unfold webscrape_requests, on_exception, retry_exception.
    apply retry_go_not_retried; [|reflexivity].
    unfold webscrape_requests_once. rewrite Hv. reflexivity.
  Qed.
End Validation.

(** C2 (code defect): [webscrape_requests("invalid-url",
    rate_limiter=RequestRateLimiter(5))] 0.1 s after that limiter's last
    request first waits on the limiter (sleeping 0.1 s and moving its
    [last_request_time]) and only then raises [InvalidURLError]; the
    aiohttp path, which validates first, leaves the same limiter and clock
    untouched. *)
Theorem C2_requests_throttles_before_validation :
  let w := world_with {[0 := RequestRateLimiter.mk (1 # 5) 0]} (1 # 10) (inr resp_html) in
  let '((r, w'), n) := webscrape_requests "invalid-url" None (Some 0) w in
  r = inr (InvalidURLError "Invalid URL format: invalid-url") /\ n = 1%nat /\
  net_calls w' = 0%nat /\
  (clock w' == 1 # 5)%Q /\
  (exists rl, store w' !! 0 = Some rl /\ (RequestRateLimiter.last_request_time rl == 1 # 5)%Q) /\
  webscrape_aiohttp "invalid-url" (config_with None (Some 0)) false None None w
  = ((inr (InvalidURLError "Invalid URL format: invalid-url"), w), 1%nat).
Proof.
  vm_compute. split; [reflexivity|]. split; [reflexivity|]. split; [reflexivity|].
  split; [reflexivity|]. split; [eexists; split; reflexivity|]. reflexivity.
Qed.

(* ------------------------------------------------------------------ *)
(** ** The content-type gate *)

Module ContentTypeGate.
  Local Open Scope Z_scope.

Lemma limiter_wait_net l w : net (limiter_wait l w) = net w /\ net_calls (limiter_wait l w) = net_calls w.
  Proof.
    unfold limiter_wait. destruct (store w !! l); [|split; reflexivity].
    destruct (RequestRateLimiter.wait _ _ _ _). split; reflexivity.
  Qed.

Lemma throttle_net (rl : option obj_id) w :
    let w1 := match rl with Some l => limiter_wait l w | None => w end in
    net w1 = net w /\ net_calls w1 = net_calls w.
  Proof. destruct rl; [apply limiter_wait_net|split; reflexivity]. Qed.

Lemma status_checks_pass st : st < 400 ->
    (bool_decide (st = 429) || bool_decide (st = 503))%bool = false /\ Z.leb 400 st = false.
  Proof.
    intros H. split.
    - rewrite !bool_decide_eq_false_2 by lia. reflexivity.
    - apply Z.leb_gt. lia.
  Qed.

Lemma aiohttp_once_mismatch url config sg os of w resp et :
    is_valid_url url = true ->
    snd (net w (net_calls w) url) = inr resp ->
    Response.status resp < 400 ->
    Response.text_decodes resp = true ->
    WebscrapeConfig.expected_content_type config = Some et ->
    py_in et (content_type_of resp) = false ->
    exists msg w', webscrape_aiohttp_once url config sg os of w = (inr (ContentTypeError msg), w').
  Proof.
    intros Hv Hn Hst Htd Hct Hin.
    assert (et <> ""%string) as Hne.
    { intros Heq. subst et. unfold py_in in Hin. simpl in Hin.
      destruct (list_ascii_of_string _); discriminate. }
    destruct (status_checks_pass _ Hst) as [H1 H2].
    unfold webscrape_aiohttp_once. rewrite Hv. cbn [negb].
    destruct (throttle_net (WebscrapeConfig.rate_limiter config) w) as [E1 E2].
    set (w1 := match WebscrapeConfig.rate_limiter config with
               | Some l => limiter_wait l w | None => w end) in *.
    set (w2 := if negb sg then emit EvSessionOpen w1 else w1).
    assert (net w2 = net w /\ net_calls w2 = net_calls w) as [E3 E4]
      by (unfold w2; destruct sg; split; assumption).
    clearbody w1 w2.
    unfold aiohttp_try_body, session_get. rewrite E3, E4.
    destruct (net w (net_calls w) url) as [d ans]. simpl in Hn. subst ans.
    cbn zeta. rewrite H1, H2, Htd. cbn [negb].
    unfold content_type_of in Hin. rewrite Hct.
    rewrite (bool_decide_eq_true_2 _ Hne), Hin. cbn.
    eexists _, _. reflexivity.
  Qed.
Lemma requests_once_mismatch url et rl w resp :
    is_valid_url url = true ->
    snd (net w (net_calls w) url) = inr resp ->
    Response.status resp < 400 ->
    py_in et (content_type_of resp) = false ->
    exists msg w', webscrape_requests_once url (Some et) rl w = (inr (ContentTypeError msg), w').
  Proof.
    intros Hv Hn Hst Hin.
    assert (et <> ""%string) as Hne.
    { intros Heq. subst et. unfold py_in in Hin. simpl in Hin.
      destruct (list_ascii_of_string _); discriminate. }
    destruct (status_checks_pass _ Hst) as [_ H2].
    unfold webscrape_requests_once.
    destruct (throttle_net rl w) as [E1 E2].
    set (w1 := match rl with Some l => limiter_wait l w | None => w end) in *.
    clearbody w1. rewrite Hv. cbn [negb].
    unfold requests_session_body, session_get. cbn [net net_calls emit].
    rewrite E1, E2.
    destruct (net w (net_calls w) url) as [d ans]. simpl in Hn. subst ans.
    assert (Z.leb 500 (Response.status resp) = false) as H5 by (apply Z.leb_gt; lia).
    unfold requests_raise_for_status. rewrite H2, H5. cbn [andb].
    unfold content_type_of in Hin.
    rewrite (bool_decide_eq_true_2 _ Hne), Hin. cbn.
    eexists _, _. reflexivity.
  Qed.
End ContentTypeGate.

(** C4 (as amended): when the response passes the status checks (status
    below 400, so neither 429/503 nor an HTTP error) and, on the aiohttp
    path, its body decodes, an [expected_content_type] that is not a
    substring of the [Content-Type] header ends the fetch with
    [ContentTypeError] after exactly one try: [ContentTypeError] is outside
    the retry tuple. *)
Theorem C4_content_type_mismatch_one_try (url et : string) (resp : Response.t) (w : World) :
  is_valid_url url = true ->
  snd (net w (net_calls w) url) = inr resp ->
  (Response.status resp < 400)%Z ->
  py_in et (content_type_of resp) = false ->
  (forall config sg os of,
     WebscrapeConfig.expected_content_type config = Some et ->
     Response.text_decodes resp = true ->
     exists msg w', webscrape_aiohttp url config sg os of w = ((inr (ContentTypeError msg), w'), 1%nat)) /\
  (forall rl, exists msg w', webscrape_requests url (Some et) rl w = ((inr (ContentTypeError msg), w'), 1%nat)) /\
  (forall msg, retry_on (ContentTypeError msg) = false).
Proof.
  intros Hv Hn Hst Hin. split; [|split; [|reflexivity]].
  - intros config sg os of Hct Htd.
    destruct (ContentTypeGate.aiohttp_once_mismatch url config sg os of w resp et Hv Hn Hst Htd Hct Hin)
      as (msg & w' & E).
    exists msg, w'. unfold webscrape_aiohttp, on_exception, retry_exception.
    apply Validation.retry_go_not_retried; [exact E|reflexivity].
  - intros rl.
    destruct (ContentTypeGate.requests_once_mismatch url et rl w resp Hv Hn Hst Hin) as (msg & w' & E).
    exists msg, w'. unfold webscrape_requests, on_exception, retry_exception.
    apply Validation.retry_go_not_retried; [exact E|reflexivity].
Qed.

Lemma C4_content_type_mismatch_one_try_witness :
  exists msg w',
    webscrape_aiohttp "http://a.com" (config_with (Some "text/html") None) false None None
      (world_with ∅ 0 (inr (resp_with 200 "OK" "application/json")))
    = ((inr (ContentTypeError msg), w'), 1%nat).
Proof.
  refine (proj1 (C4_content_type_mismatch_one_try "http://a.com" "text/html"
                   (resp_with 200 "OK" "application/json")
                   (world_with ∅ 0 (inr (resp_with 200 "OK" "application/json")))
                   eq_refl eq_refl _ eq_refl)
            (config_with (Some "text/html") None) false None None eq_refl eq_refl).
  vm_compute. reflexivity.
Defined.

(** C4 (refuted as stated): a [404] response whose [Content-Type] is
    [application/json] while [text/html] is expected ends in a retried HTTP
    error, not in [ContentTypeError]: the status checks come first. *)
Lemma C4_status_checked_before_content_type :
  let '((r, _), n) :=
    webscrape_aiohttp "http://a.com" (config_with (Some "text/html") None) false None None
      (world_with ∅ 0 (inr (resp_with 404 "Not Found" "application/json"))) in
  r = inr (WebPageLoadError "HTTP error for http://a.com: 404, message='Not Found', url='http://a.com'")
  /\ n = 3%nat.
Proof. vm_compute. split; reflexivity. Qed.

(* ------------------------------------------------------------------ *)
(** ** The retry loop *)

Module BackoffFacts.
  Local Open Scope Q_scope.

  Section Loop.
    Context {A : Type}.
    Variable f : World -> Result A.
    Variable exception : Exn -> bool.
    Variable max_time : Q.
    Variable start : Q.

Lemma head_lookup_0 {B} (l : list B) x : head l = Some x -> l !! 0%nat = Some x.
    Proof. destruct l; simpl; congruence. Qed.

Lemma retry_go_trace left : forall tries w r w' n,
      retry_go f exception max_time left tries start w = ((r, w'), n) ->
      exists (ws : list World) (wl wl' : World),
        n = (tries + S (length ws))%nat /\ (length ws <= left)%nat /\
        head (ws ++ [wl]) = Some w /\
        (forall k wk wk1, (ws ++ [wl])%list !! k = Some wk -> (ws ++ [wl])%list !! S k = Some wk1 ->
           backoff_step f exception max_time start (tries + k) wk wk1) /\
        f wl = (r, wl') /\
        match r with
        | inr e =>
            if exception e
            then w' = emit (EvGiveup n (clock wl - start)) wl' /\
                 (n = (tries + S left)%nat \/ max_time <= clock wl - start)
            else w' = wl'
        | inl _ => w' = wl'
        end.
    Proof.
      induction left as [|left IH]; intros tries w r w' n Hrun; simpl in Hrun;
        destruct (f w) as [[v|e] w1] eqn:Hf;
        [| destruct (exception e) eqn:He; simpl in Hrun | | destruct (exception e) eqn:He; simpl in Hrun].
      all: try (injection Hrun as <- <- <-;
                exists [], w, w1; simpl; rewrite ?He;
                split; [lia|]; split; [lia|]; split; [reflexivity|];
                split; [intros [|?] ? ? ? Hk; discriminate|]; split; [exact Hf|]).
      all: try reflexivity.
      - split; [reflexivity|]. left. lia.
      - destruct (Qle_bool max_time (clock w - start)) eqn:Hq.
        + injection Hrun as <- <- <-. exists [], w, w1. simpl. rewrite He.
          split; [lia|]; split; [lia|]; split; [reflexivity|].
          split; [intros [|?] ? ? ? Hk; discriminate|]; split; [exact Hf|].
          split; [reflexivity|]. right. apply Qle_bool_imp_le, Hq.
        + apply IH in Hrun as (ws & wl & wl' & Hn & Hlen & Hhd & Hws & Hfl & Hlast).
          exists (w :: ws), wl, wl'. simpl.
          split; [lia|]. split; [lia|]. split; [reflexivity|].
          split; [|split; [exact Hfl|]].
          * intros [|k] wk wk1 Hk Hk1; simpl in Hk, Hk1.
            -- injection Hk as <-. apply head_lookup_0 in Hhd.
               rewrite Hhd in Hk1. injection Hk1 as <-.
               exists e, w1, (fst (draw w1)), (snd (draw w1)). rewrite Hf.
               split; [reflexivity|]. split; [exact He|]. split.
               ++ apply Qnot_le_lt. intros Hle.
                  apply Qle_bool_iff in Hle. congruence.
               ++ split; [reflexivity|].
                  replace (tries - 0)%nat with tries by lia.
                  replace (tries + 0)%nat with tries by lia. reflexivity.
            -- replace (tries + S k)%nat with (S tries + k)%nat by lia.
               exact (Hws k wk wk1 Hk Hk1).
          * destruct r as [v|e']; [exact Hlast|].
            destruct (exception e'); [|exact Hlast].
            destruct Hlast as [Hw Hor]. split; [exact Hw|].
            destruct Hor as [Hor|Hor]; [left; lia|right; exact Hor].
    Qed.
  End Loop.

Lemma retry_exception_contract {A} (f : World -> Result A) exception max_tries max_time w :
    (1 <= max_tries)%nat ->
    backoff_contract f exception max_tries max_time w
      (retry_exception f exception max_tries max_time w).
  Proof.
    intros Hm. unfold retry_exception.
    destruct (retry_go f exception max_time (max_tries - 1) 0 (clock w) w) as [[r w'] n] eqn:E.
    apply retry_go_trace in E as (ws & wl & wl' & Hn & Hlen & Hhd & Hws & Hfl & Hlast).
    simpl. exists ws, wl, wl'.
    split; [lia|]. split; [lia|]. split; [exact Hhd|]. split; [exact Hws|].
    split; [exact Hfl|].
    destruct r as [v|e]; [exact Hlast|]. destruct (exception e); [|exact Hlast].
    destruct Hlast as [Hw Hor]. split; [exact Hw|].
    destruct Hor as [Hor|Hor]; [left; lia|right; exact Hor].
  Qed.
End BackoffFacts.

(** C5: both decorated fetches make at most [DEFAULT_MAX_RETRIES = 3]
    attempts; each attempt that is retried failed with an exception of the
    retry tuple and started less than [DEFAULT_MAX_TIME = 90] s after the
    call, and the next attempt starts after a backoff sleep of
    [min(2^k * u, 90 - elapsed)] seconds, [elapsed] being measured when the
    failed attempt started; the call surfaces the outcome of its last
    attempt, and when that is a retryable failure the loop gave up because
    the third try failed or that attempt started 90 s or more after the
    call. *)
Theorem C5_retry_bounds (url : string) (config : WebscrapeConfig.t) (sg : bool)
    (os of : option Callback) (ect : option string) (rl : option obj_id) (w : World) :
  backoff_contract (webscrape_aiohttp_once url config sg os of) retry_on 3 90 w
    (webscrape_aiohttp url config sg os of w) /\
  backoff_contract (webscrape_requests_once url ect rl) retry_on 3 90 w
    (webscrape_requests url ect rl w).
Proof.
  unfold webscrape_aiohttp, webscrape_requests, on_exception.
  split; apply BackoffFacts.retry_exception_contract; unfold DEFAULT_MAX_RETRIES; lia.
Qed.

(** C5 (counterexample): the time limit is tested against the elapsed time
    at the start of the failed attempt, not at its end.  With a server that
    takes 100 s to answer [500], the first attempt starts at 0 s and fails
    at 100 s; it is retried after a sleep of 0.5 s, so a second attempt
    starts 100.5 s after the call, once the 90 s have elapsed; the loop
    gives up only after that attempt. *)
Lemma C5_retry_after_max_time :
  let '((r, w'), n) := webscrape_requests "http://a.com" None None
      (slow_world (inr (resp_with 500 "Internal Server Error" "text/html"))) in
  n = 2%nat /\
  r = inr (WebPageLoadError "HTTP error for http://a.com: 500 Server Error: Internal Server Error for url: http://a.com/") /\
  log w' =
    [EvSessionOpen; EvNetCall "http://a.com"; EvSessionClose;
     EvLog "ERROR" "HTTP error for http://a.com: 500 Server Error: Internal Server Error for url: http://a.com/";
     EvBackoff 1 0 (1 # 2); EvSleep (1 # 2); EvSessionOpen;
     EvNetCall "http://a.com"; EvSessionClose;
     EvLog "ERROR" "HTTP error for http://a.com: 500 Server Error: Internal Server Error for url: http://a.com/";
     EvGiveup 2 (201 # 2)] /\
  (90 < 201 # 2)%Q.
Proof. vm_compute. repeat split; reflexivity. Qed.

(* ------------------------------------------------------------------ *)
(** ** Rate limiting and the failure callback on the aiohttp path *)

Module Outcomes.
Lemma retry_exception_last {A} (f : World -> Result A) exception max_tries max_time w :
    (1 <= max_tries)%nat ->
    exists wl, fst (fst (retry_exception f exception max_tries max_time w)) = fst (f wl).
  Proof.
    intros Hm. pose proof (BackoffFacts.retry_exception_contract f exception max_tries max_time w Hm) as H.
    destruct (retry_exception f exception max_tries max_time w) as [[r w'] n].
    destruct H as (ws & wl & wl' & _ & _ & _ & _ & Hfl & _).
    exists wl. rewrite Hfl. reflexivity.
  Qed.

Lemma aiohttp_except_not_rate_limited url of e sr w :
    is_rate_limited (fst (aiohttp_except url of e sr w)) = false.
  Proof. destruct e; reflexivity. Qed.

Lemma requests_except_not_rate_limited url e w :
    is_rate_limited (fst (requests_except url e w)) = false.
  Proof. destruct e; reflexivity. Qed.

Lemma aiohttp_once_not_rate_limited url config sg os of w :
    is_rate_limited (fst (webscrape_aiohttp_once url config sg os of w)) = false.
  Proof.
    unfold webscrape_aiohttp_once. destruct (negb (is_valid_url url)); [reflexivity|].
    destruct (aiohttp_try_body _ _ _ _ _) as [[[sr|e] o] w1]; [reflexivity|].
    pose proof (aiohttp_except_not_rate_limited url of e o w1) as H.
    destruct (aiohttp_except url of e o w1). exact H.
  Qed.

Lemma requests_once_not_rate_limited url ect rl w :
    is_rate_limited (fst (webscrape_requests_once url ect rl w)) = false.
  Proof.
    unfold webscrape_requests_once. destruct (negb (is_valid_url url)); [reflexivity|].
    destruct (requests_session_body _ _ _ _) as [[sr|e] w1]; [reflexivity|].
    apply requests_except_not_rate_limited.
  Qed.

  (** A failed [try] block leaves [scrape_result] unbound. *)
Lemma aiohttp_try_body_failure_unbound url config os start w :
    match aiohttp_try_body url config os start w with
    | ((inr _, sr), _) => sr = None
    | _ => True
    end.
  Proof.
    unfold aiohttp_try_body. destruct (session_get url w) as [[[m|m|m|m]|resp] w1];
      try reflexivity.
    repeat case_match; simplify_eq; try reflexivity; exact I.
  Qed.
End Outcomes.

(** C3: no fetch ever surfaces a [RateLimitExceededError].  On the aiohttp
    path the generic [except Exception] clause turns it into a
    [WebPageLoadError] "Unexpected error while loading ..."; on the requests
    path [raise_for_status()] raises an [HTTPError] for 429 and 503 before
    the status test is reached, whose message ends with [response.url].  A
    429 answer is still retried, three times. *)
Theorem C3_rate_limit_not_surfaced :
  (forall url config sg os of w,
     is_rate_limited (fst (fst (webscrape_aiohttp url config sg os of w))) = false) /\
  (forall url ect rl w,
     is_rate_limited (fst (fst (webscrape_requests url ect rl w))) = false) /\
  (let w := world_with ∅ 0 (inr (resp_with 429 "Too Many Requests" "text/html")) in
   let '((r1, _), n1) := webscrape_aiohttp "http://a.com" (config_with None None) false None None w in
   let '((r2, _), n2) := webscrape_requests "http://a.com" None None w in
   r1 = inr (WebPageLoadError "Unexpected error while loading http://a.com: Rate limit exceeded: 429") /\
   n1 = 3%nat /\
   r2 = inr (WebPageLoadError "HTTP error for http://a.com: 429 Client Error: Too Many Requests for url: http://a.com/") /\
   n2 = 3%nat).
Proof.
  split; [|split].
  - intros url config sg os of w. unfold webscrape_aiohttp, on_exception.
    destruct (Outcomes.retry_exception_last (webscrape_aiohttp_once url config sg os of)
                retry_on DEFAULT_MAX_RETRIES (inject_Z DEFAULT_MAX_TIME) w) as [wl ->];
      [unfold DEFAULT_MAX_RETRIES; lia|].
    apply Outcomes.aiohttp_once_not_rate_limited.
  - intros url ect rl w. unfold webscrape_requests, on_exception.
    destruct (Outcomes.retry_exception_last (webscrape_requests_once url ect rl)
                retry_on DEFAULT_MAX_RETRIES (inject_Z DEFAULT_MAX_TIME) w) as [wl ->];
      [unfold DEFAULT_MAX_RETRIES; lia|].
    apply Outcomes.requests_once_not_rate_limited.
  - vm_compute. repeat split.
Qed.

(** C8: [on_failure] is never called.  Every failed [try] block leaves the
    local [scrape_result] unbound, so [run_on_failure] raises [NameError]
    when it reads it, and that exception is caught and logged.  For a URL
    whose connection is always refused, the call still ends with the
    [WebPageLoadError] after three tries, logs the [NameError] three times,
    and records no call of [on_failure]. *)
Theorem C8_on_failure_never_called :
  (forall url config os start w,
     match aiohttp_try_body url config os start w with
     | ((inr _, sr), _) => sr = None
     | _ => True
     end) /\
  (forall (cb : Callback) w,
     run_on_failure (Some cb) None w =
     logging_exception ("An exception was encountered while running the on_failure callback: " ++
       exn_str (NameError "cannot access free variable 'scrape_result' where it is not associated with a value in enclosing scope")) w) /\
  (let w := world_with ∅ 0 (inl (TConnect "refused")) in
   let '((r, w'), n) := webscrape_aiohttp "http://a.com" (config_with None None) false None
                          (Some (fun sr => (sr, None))) w in
   r = inr (WebPageLoadError "Connection error for http://a.com: refused") /\ n = 3%nat /\
   existsb (is_callback_event "on_failure") (log w') = false /\
   length (List.filter (fun ev => match ev with EvLog "EXCEPTION" _ => true | _ => false end) (log w')) = 3%nat).
Proof.
  split; [|split].
  - intros. apply Outcomes.aiohttp_try_body_failure_unbound.
  - intros cb w. reflexivity.
  - vm_compute. repeat split.
Qed.

(* ------------------------------------------------------------------ *)
(** ** The batch of [scrape_url_list_async] *)

Module GatherFacts.
  Section Gather.
    Context {A : Type}.
    Variable tasks : list (World -> (A + Exn) * World).

    (** Every scheduled slot ends up holding the outcome of a run of its
        task; the other slots are left as they were. *)
Lemma gather_sched_spec sched : forall slots w,
      (forall i, i ∈ sched -> i < length tasks) ->
      length slots = length tasks ->
      length (fst (gather_sched tasks sched slots w)) = length slots /\
      forall i,
        (i ∈ sched -> exists t wi, tasks !! i = Some t /\
           fst (gather_sched tasks sched slots w) !! i = Some (Some (fst (t wi)))) /\
        (i ∉ sched -> fst (gather_sched tasks sched slots w) !! i = slots !! i).
    Proof.
      induction sched as [|j sched IH]; intros slots w Hb Hlen; simpl.
      - split; [reflexivity|]. intros i. split; [intros Hi; inversion Hi|reflexivity].
      - assert (Hj : j < length tasks) by (apply Hb; left).
        destruct (lookup_lt_is_Some_2 tasks j Hj) as [t Ht]. rewrite Ht.
        destruct (t w) as [o w1] eqn:Htw.
        assert (Hb' : forall i, i ∈ sched -> i < length tasks)
          by (intros i Hi; apply Hb; right; exact Hi).
        assert (Hlen' : length (<[j := Some o]> slots) = length tasks)
          by (rewrite length_insert; exact Hlen).
        destruct (IH (<[j := Some o]> slots) w1 Hb' Hlen') as [Hl Hsl].
        split; [rewrite Hl, length_insert; reflexivity|].
        intros i. destruct (Hsl i) as [Hin Hout]. split.
        + intros Hi. destruct (decide (i ∈ sched)) as [Hs|Hs]; [exact (Hin Hs)|].
          apply elem_of_cons in Hi as [->|Hi]; [|contradiction].
          exists t, w. split; [exact Ht|]. rewrite (Hout Hs), Htw.
          apply list_lookup_insert_eq. lia.
        + intros Hi. rewrite Hout by (intros Hs; apply Hi; right; exact Hs).
          apply list_lookup_insert_ne. intros ->. apply Hi. left.
    Qed.
  End Gather.

Lemma all_done_full {X} (s : list (option X)) :
    (forall i, i < length s -> exists x, s !! i = Some (Some x)) ->
    exists l, all_done s = Some l /\ length l = length s /\
      forall i x, s !! i = Some (Some x) -> l !! i = Some x.
  Proof.
    induction s as [|[x|] s IH]; intros Hfull; simpl.
    - exists []. split; [reflexivity|]. split; [reflexivity|]. intros i x H; discriminate.
    - destruct IH as (l & Hl & Hlen & Hlk).
      { intros i Hi. apply (Hfull (S i)). simpl. lia. }
      rewrite Hl. exists (x :: l). split; [reflexivity|]. split; [simpl; lia|].
      intros [|i] y Hy; simpl in Hy |- *; [congruence|]. exact (Hlk i y Hy).
    - destruct (Hfull 0) as [x Hx]; [simpl; lia|]. discriminate.
  Qed.

  (** [gather] over a schedule that runs every task once returns one
      outcome per task, in the order of the tasks. *)
Lemma gather_perm {A} (tasks : list (World -> (A + Exn) * World)) sched w :
    sched ≡ₚ seq 0 (length tasks) ->
    exists outs w', gather tasks sched w = Some (outs, w') /\
      length outs = length tasks /\
      forall i t, tasks !! i = Some t -> exists wi, outs !! i = Some (fst (t wi)).
  Proof.
    intros Hp. unfold gather.
    assert (Hb : forall i, i ∈ sched -> i < length tasks).
    { intros i Hi. rewrite Hp, elem_of_seq in Hi. lia. }
    destruct (gather_sched_spec tasks sched (replicate (length tasks) None) w Hb
                (length_replicate _ _)) as [Hl Hsl].
    destruct (gather_sched tasks sched (replicate (length tasks) None) w) as [slots w'].
    simpl in Hl, Hsl. rewrite length_replicate in Hl.
    destruct (all_done_full slots) as (outs & Hout & Hlen & Hlk).
    { intros i Hi. assert (Hs : i ∈ sched) by (rewrite Hp, elem_of_seq; lia).
      destruct (proj1 (Hsl i) Hs) as (t & wi & _ & Hti). eexists; exact Hti. }
    rewrite Hout. exists outs, w'. split; [reflexivity|]. split; [lia|].
    intros i t Ht. assert (Hs : i ∈ sched).
    { rewrite Hp, elem_of_seq. apply lookup_lt_Some in Ht. lia. }
    destruct (proj1 (Hsl i) Hs) as (t' & wi & Ht' & Hti).
    rewrite Ht in Ht'. injection Ht' as <-. exists wi. exact (Hlk _ _ Hti).
  Qed.

Lemma raise_first_cases {A} (outs : list (A + Exn)) :
    (exists vs, outs = inl <$> vs /\ raise_first outs = inl vs) \/
    (exists k e, outs !! k = Some (inr e) /\
       (forall j, j < k -> exists v, outs !! j = Some (inl v)) /\
       raise_first outs = inr e).
  Proof.
    induction outs as [|[v|e] outs IH]; simpl.
    - left. exists []. split; reflexivity.
    - destruct IH as [(vs & -> & ->)|(k & e & Hk & Hbefore & ->)].
      + left. exists (v :: vs). split; reflexivity.
      + right. exists (S k), e. split; [exact Hk|]. split; [|reflexivity].
        intros [|j] Hj; simpl; [eexists; reflexivity|]. apply Hbefore. lia.
    - right. exists 0, e. split; [reflexivity|]. split; [intros j Hj; lia|reflexivity].
  Qed.

Lemma lookup_scrape_tasks url_list config os of i u :
    url_list !! i = Some u ->
    scrape_tasks url_list config os of !! i =
      Some (fun w => task_outcome (webscrape_aiohttp u config true os of w)).
  Proof.
    unfold scrape_tasks. revert i. induction url_list as [|u' us IH]; intros [|i] Hi;
      simpl in Hi |- *; try discriminate.
    - injection Hi as ->. reflexivity.
    - apply IH, Hi.
  Qed.

Lemma length_scrape_tasks url_list config os of :
    length (scrape_tasks url_list config os of) = length url_list.
  Proof. unfold scrape_tasks. apply length_map. Qed.

  (** The batch result, for a schedule that runs every task once. *)
Lemma scrape_url_list_async_perm url_list config os of sched w :
    sched ≡ₚ seq 0 (length url_list) ->
    exists outs w', scrape_url_list_async url_list config os of sched w = Some (raise_first outs, w') /\
      length outs = length url_list /\
      forall i u, url_list !! i = Some u ->
        exists wi, outs !! i = Some (fst (fst (webscrape_aiohttp u config true os of wi))).
  Proof.
    intros Hp. unfold scrape_url_list_async.
    rewrite <- (length_scrape_tasks url_list config os of) in Hp.
    destruct (gather_perm (scrape_tasks url_list config os of) sched (emit EvSessionOpen w) Hp)
      as (outs & w' & Hg & Hlen & Hlk).
    rewrite Hg. exists outs, (emit EvSessionClose w'). split; [reflexivity|].
    split; [rewrite Hlen; apply length_scrape_tasks|].
    intros i u Hu. exact (Hlk i _ (lookup_scrape_tasks url_list config os of i u Hu)).
  Qed.

  (** Without [on_success], a successful [try] block returns a record for the
      URL it was given. *)
Lemma aiohttp_try_body_url url config start w :
    match aiohttp_try_body url config None start w with
    | ((inl sr, _), _) => ScrapedResponse.url sr = url
    | _ => True
    end.
  Proof.
    unfold aiohttp_try_body. destruct (session_get url w) as [[[m|m|m|m]|resp] w1];
      try exact I.
    repeat case_match; simplify_eq; try reflexivity; exact I.
  Qed.

Lemma aiohttp_once_url url config sg of w sr :
    fst (webscrape_aiohttp_once url config sg None of w) = inl sr ->
    ScrapedResponse.url sr = url.
  Proof.
    unfold webscrape_aiohttp_once. destruct (negb (is_valid_url url)); [discriminate|].
    pose proof (aiohttp_try_body_url url config (clock w)
      (let w := match WebscrapeConfig.rate_limiter config with
                | Some l => limiter_wait l w | None => w end in
       if negb sg then emit EvSessionOpen w else w)) as Hu.
    destruct (aiohttp_try_body _ _ _ _ _) as [[[sr'|e] o] w1].
    - simpl. intros H. injection H as <-. exact Hu.
    - unfold aiohttp_except. destruct e; simpl; discriminate.
  Qed.

Lemma aiohttp_url url config sg of w sr :
    fst (fst (webscrape_aiohttp url config sg None of w)) = inl sr ->
    ScrapedResponse.url sr = url.
  Proof.
    unfold webscrape_aiohttp, on_exception.
    destruct (Outcomes.retry_exception_last (webscrape_aiohttp_once url config sg None of)
                retry_on DEFAULT_MAX_RETRIES (inject_Z DEFAULT_MAX_TIME) w) as [wl ->];
      [unfold DEFAULT_MAX_RETRIES; lia|].
    apply aiohttp_once_url.
  Qed.
End GatherFacts.

(** C1 (counterexample): a URL that fails validation makes the whole batch
    raise its [InvalidURLError]; the two other fetches still ran (two
    network calls) but their responses are not returned. *)
Lemma C1_invalid_url_escapes_batch :
  match scrape_url_list_async ["invalid-url"; "http://a.com"; "http://b.com"]
          (config_with None None) None None [2; 1; 0]%nat (world_with ∅ 0 (inr resp_html)) with
  | Some (r, w') => r = inr (InvalidURLError "Invalid URL format: invalid-url") /\ net_calls w' = 2%nat
  | None => False
  end.
Proof. vm_compute. split; reflexivity. Qed.

(** C1 (amended): for any completion order of the tasks, the batch waits for
    every fetch: each URL's fetch runs to its own outcome, with no
    cancellation.  The call then returns the list of responses, in input
    order, when every fetch succeeded; otherwise it raises the exception of
    the first failed URL in input order. *)
Theorem C1_batch_outcomes (url_list : list string) (config : WebscrapeConfig.t)
    (os of : option Callback) (sched : list nat) (w : World)
    (Hsched : sched ≡ₚ seq 0 (length url_list)) :
  exists outs w',
    scrape_url_list_async url_list config os of sched w = Some (raise_first outs, w') /\
    length outs = length url_list /\
    (forall i u, url_list !! i = Some u ->
       exists wi, outs !! i = Some (fst (fst (webscrape_aiohttp u config true os of wi)))) /\
    ((exists vs, outs = inl <$> vs /\ raise_first outs = inl vs) \/
     (exists k e, outs !! k = Some (inr e) /\
        (forall j, j < k -> exists v, outs !! j = Some (inl v)) /\
        raise_first outs = inr e)).
Proof.
  destruct (GatherFacts.scrape_url_list_async_perm url_list config os of sched w Hsched)
    as (outs & w' & Hs & Hlen & Hlk).
  exists outs, w'. split; [exact Hs|]. split; [exact Hlen|]. split; [exact Hlk|].
  apply GatherFacts.raise_first_cases.
Qed.

Lemma C1_batch_outcomes_witness :
  [2; 0; 1]%nat ≡ₚ seq 0 (length ["http://a.com"; "http://b.com"; "http://c.com"]) /\
  exists outs w',
    scrape_url_list_async ["http://a.com"; "http://b.com"; "http://c.com"] (config_with None None)
      None None [2; 0; 1]%nat (world_with ∅ 0 (inr resp_html)) = Some (raise_first outs, w') /\
    length outs = 3%nat /\
    (forall i u, ["http://a.com"; "http://b.com"; "http://c.com"] !! i = Some u ->
       exists wi, outs !! i = Some (fst (fst (webscrape_aiohttp u (config_with None None) true None None wi)))) /\
    ((exists vs, outs = inl <$> vs /\ raise_first outs = inl vs) \/
     (exists k e, outs !! k = Some (inr e) /\
        (forall j, j < k -> exists v, outs !! j = Some (inl v)) /\
        raise_first outs = inr e)).
Proof.
  assert (Hp : [2; 0; 1]%nat ≡ₚ seq 0 (length ["http://a.com"; "http://b.com"; "http://c.com"])).
  { simpl. apply (Permutation_cons_append [0; 1]%nat 2). }
  split; [exact Hp|].
  exact (C1_batch_outcomes ["http://a.com"; "http://b.com"; "http://c.com"] (config_with None None)
           None None [2; 0; 1]%nat (world_with ∅ 0 (inr resp_html)) Hp).
Defined.

(** C7: with no [on_success] callback (the default), for any completion
    order of the tasks, the batch call returns, and when it returns a list
    of responses, its i-th entry is the value returned by the fetch of the
    i-th input URL, a record for that URL.  ([on_success] receives the very
    record that is then returned, and may reassign its [url].) *)
Theorem C7_batch_preserves_order (url_list : list string) (config : WebscrapeConfig.t)
    (of : option Callback) (sched : list nat) (w : World)
    (Hsched : sched ≡ₚ seq 0 (length url_list)) :
  exists res, scrape_url_list_async url_list config None of sched w = Some res /\
    match fst res with
    | inl rs =>
        ScrapedResponse.url <$> rs = url_list /\
        forall i u, url_list !! i = Some u ->
          exists sr wi, rs !! i = Some sr /\
            fst (fst (webscrape_aiohttp u config true None of wi)) = inl sr
    | inr _ => True
    end.
Proof.
  destruct (GatherFacts.scrape_url_list_async_perm url_list config None of sched w Hsched)
    as (outs & w' & Hs & Hlen & Hlk).
  rewrite Hs. eexists; split; [reflexivity|]. simpl.
  destruct (GatherFacts.raise_first_cases outs) as [(vs & -> & ->)|(k & e & _ & _ & ->)]; [|exact I].
  rewrite length_fmap in Hlen.
  assert (Hslot : forall i u, url_list !! i = Some u ->
            exists sr wi, vs !! i = Some sr /\
              fst (fst (webscrape_aiohttp u config true None of wi)) = inl sr).
  { intros i u Hu. destruct (Hlk i u Hu) as [wi Hwi]. rewrite list_lookup_fmap in Hwi.
    destruct (vs !! i) as [sr|] eqn:Hv; [|discriminate]. simpl in Hwi.
    injection Hwi as Hwi. exists sr, wi. split; [reflexivity|symmetry; exact Hwi]. }
  split; [|exact Hslot].
  apply list_eq. intros i. rewrite list_lookup_fmap.
  destruct (url_list !! i) as [u|] eqn:Hu.
  - destruct (Hslot i u Hu) as (sr & wi & Hv & Hwi). rewrite Hv. simpl. f_equal.
    exact (GatherFacts.aiohttp_url u config true of wi sr Hwi).
  - apply lookup_ge_None in Hu. rewrite lookup_ge_None_2 by lia. reflexivity.
Qed.

Lemma C7_batch_preserves_order_witness :
  [1; 0]%nat ≡ₚ seq 0 (length ["http://a.com"; "http://b.com"]) /\
  exists res, scrape_url_list_async ["http://a.com"; "http://b.com"] (config_with None None)
      None None [1; 0]%nat (world_with ∅ 0 (inr resp_html)) = Some res /\
    match fst res with
    | inl rs =>
        ScrapedResponse.url <$> rs = ["http://a.com"; "http://b.com"] /\
        forall i u, ["http://a.com"; "http://b.com"] !! i = Some u ->
          exists sr wi, rs !! i = Some sr /\
            fst (fst (webscrape_aiohttp u (config_with None None) true None None wi)) = inl sr
    | inr _ => True
    end.
Proof.
  assert (Hp : [1; 0]%nat ≡ₚ seq 0 (length ["http://a.com"; "http://b.com"]))
    by (simpl; apply perm_swap).
  split; [exact Hp|].
  exact (C7_batch_preserves_order ["http://a.com"; "http://b.com"] (config_with None None)
           None [1; 0]%nat (world_with ∅ 0 (inr resp_html)) Hp).
Defined.

(* ------------------------------------------------------------------ *)
(** ** [is_valid_url] (the default [urllib] validator) *)

Module URLFacts.

Lemma list_ascii_of_string_app (s1 s2 : string) :
  list_ascii_of_string (s1 ++ s2) = (list_ascii_of_string s1 ++ list_ascii_of_string s2)%list.
Proof. induction s1 as [|c s1 IH]; simpl; [reflexivity|]. rewrite IH. reflexivity. Qed.

Lemma is_valid_url_cleaned (u1 u2 : string) :
  url_cleaned u1 = url_cleaned u2 -> is_valid_url u1 = is_valid_url u2.
Proof.
  intros H. unfold is_valid_url, urlsplit_scheme_netloc.
  change (filter (fun c => negb (unsafe_url_byte c)) (lstrip_c0 (list_ascii_of_string u1)))
    with (url_cleaned u1).
  change (filter (fun c => negb (unsafe_url_byte c)) (lstrip_c0 (list_ascii_of_string u2)))
    with (url_cleaned u2).
  rewrite H. reflexivity.
Qed.

Lemma unsafe_c0 c : unsafe_url_byte c = true -> c0_control_or_space c = true.
Proof.
  unfold unsafe_url_byte. intros H.
  repeat case_bool_decide; subst; try reflexivity. discriminate.
Qed.

Lemma cleaned_drop_unsafe (l1 l2 : list ascii) c : unsafe_url_byte c = true ->
  filter (fun c => negb (unsafe_url_byte c)) (lstrip_c0 (l1 ++ c :: l2)) =
  filter (fun c => negb (unsafe_url_byte c)) (lstrip_c0 (l1 ++ l2)).
Proof.
  intros Hc. induction l1 as [|a l1 IH]; simpl.
  - rewrite (unsafe_c0 c Hc). reflexivity.
  - destruct (c0_control_or_space a); [exact IH|].
    rewrite !filter_cons, !filter_app, (filter_cons_False _ c); [reflexivity|].
    rewrite Hc. simpl. tauto.
Qed.

(** Facts about one letter, checked over all 256 characters. *)
Lemma alpha_facts c : is_alpha c = true ->
  c0_control_or_space c = false /\ unsafe_url_byte c = false /\ c <> ":"%char /\
  is_scheme_char c = true /\ is_alpha (ascii_lower c) = true /\
  ascii_lower (ascii_lower c) = ascii_lower c.
Proof.
  destruct c as [[] [] [] [] [] [] [] []]; vm_compute; intros H;
    try discriminate; repeat split; try reflexivity; discriminate.
Qed.

Lemma filter_safe (l : list ascii) :
  forallb (fun c => negb (unsafe_url_byte c)) l = true ->
  filter (fun c => negb (unsafe_url_byte c)) l = l.
Proof.
  induction l as [|c l IH]; simpl; [reflexivity|]. intros H.
  apply andb_prop in H as [Hc Hl]. rewrite filter_cons_True by (rewrite Hc; exact I).
  rewrite IH by exact Hl. reflexivity.
Qed.

Lemma split_colon_app (pre post : list ascii) :
  forallb (fun c => negb (bool_decide (c = ":"%char))) pre = true ->
  split_colon (pre ++ ":"%char :: post) = Some (pre, post).
Proof.
  induction pre as [|c pre IH]; simpl; intros H.
  - reflexivity.
  - apply andb_prop in H as [Hc Hp].
    destruct (bool_decide (c = ":"%char)); [discriminate|]. rewrite IH by exact Hp. reflexivity.
Qed.

Lemma split_colon_inv (u pre post : list ascii) :
  split_colon u = Some (pre, post) -> u = (pre ++ ":"%char :: post)%list.
Proof.
  revert pre post. induction u as [|c u IH]; intros pre post; simpl; [discriminate|].
  case_bool_decide as Hc.
  - intros H. injection H as <- <-. subst c. reflexivity.
  - destruct (split_colon u) as [[a b]|] eqn:E; [|discriminate].
    intros H. injection H as <- <-. rewrite (IH a b eq_refl). reflexivity.
Qed.

Lemma split_netloc_app (l1 l2 : list ascii) :
  forallb plain_netloc_char l1 = true ->
  split_netloc (l1 ++ l2) = ((l1 ++ fst (split_netloc l2))%list, snd (split_netloc l2)).
Proof.
  induction l1 as [|c l1 IH]; simpl; intros H.
  - destruct (split_netloc l2); reflexivity.
  - apply andb_prop in H as [Hc Hl]. unfold plain_netloc_char in Hc.
    do 2 (case_bool_decide; [simpl in Hc; discriminate|]).
    case_bool_decide; [simpl in Hc; discriminate|]. simpl.
    rewrite IH by exact Hl. reflexivity.
Qed.

Lemma split_netloc_end (l : list ascii) :
  ends_netloc l = true -> split_netloc l = ([], l).
Proof.
  destruct l as [|c l]; simpl; [reflexivity|]. intros H. rewrite H. reflexivity.
Qed.

(** A scheme made of letters, followed by a colon, survives the cleaning
    as it is. *)
Lemma cleaned_scheme (pre : list ascii) (r : string) :
  pre <> [] -> forallb is_alpha pre = true ->
  url_cleaned (string_of_list_ascii pre ++ ":" ++ r) =
  (pre ++ ":"%char :: filter (fun c => negb (unsafe_url_byte c)) (list_ascii_of_string r))%list.
Proof.
  intros Hne Ha. unfold url_cleaned.
  rewrite list_ascii_of_string_app, list_ascii_of_string_of_list_ascii.
  destruct pre as [|a pre]; [congruence|].
  simpl in Ha. apply andb_prop in Ha as [Ha Hpre].
  destruct (alpha_facts a Ha) as (Hc0 & Hu & _).
  simpl. rewrite Hc0.
  change (list_ascii_of_string ("" ++ r)) with (list_ascii_of_string r).
  change (a :: (pre ++ ":"%char :: list_ascii_of_string r))%list
    with ((a :: pre) ++ ":"%char :: list_ascii_of_string r)%list.
  rewrite filter_app, (filter_safe (a :: pre)).
  2: { simpl. rewrite Hu. simpl. clear -Hpre. induction pre as [|b pre IH]; [reflexivity|].
       simpl in Hpre |- *. apply andb_prop in Hpre as [Hb Hp].
       destruct (alpha_facts b Hb) as (_ & Hub & _). rewrite Hub, IH by exact Hp. reflexivity. }
  rewrite filter_cons_True by exact I. reflexivity.
Qed.

Lemma alpha_no_colon (pre : list ascii) :
  forallb is_alpha pre = true ->
  forallb (fun c => negb (bool_decide (c = ":"%char))) pre = true.
Proof.
  induction pre as [|c pre IH]; simpl; [reflexivity|]. intros H.
  apply andb_prop in H as [Hc Hp]. destruct (alpha_facts c Hc) as (_ & _ & Hn & _).
  rewrite bool_decide_false by exact Hn. simpl. apply IH, Hp.
Qed.

Lemma alpha_scheme_chars (pre : list ascii) :
  forallb is_alpha pre = true -> forallb is_scheme_char pre = true.
Proof.
  induction pre as [|c pre IH]; simpl; [reflexivity|]. intros H.
  apply andb_prop in H as [Hc Hp]. destruct (alpha_facts c Hc) as (_ & _ & _ & Hs & _).
  rewrite Hs. apply IH, Hp.
Qed.

Lemma alpha_lower (pre : list ascii) :
  forallb is_alpha pre = true ->
  forallb is_alpha (map ascii_lower pre) = true /\
  map ascii_lower (map ascii_lower pre) = map ascii_lower pre.
Proof.
  induction pre as [|c pre IH]; simpl; [split; reflexivity|]. intros H.
  apply andb_prop in H as [Hc Hp]. destruct (alpha_facts c Hc) as (_ & _ & _ & _ & Hl & Hll).
  destruct (IH Hp) as [H1 H2]. rewrite Hl, H1, Hll, H2. split; reflexivity.
Qed.

(** [urlsplit] on a URL whose scheme is made of letters. *)
Lemma urlsplit_alpha_scheme (pre : list ascii) (r : string) :
  pre <> [] -> forallb is_alpha pre = true ->
  urlsplit_scheme_netloc (string_of_list_ascii pre ++ ":" ++ r) =
  let rest := filter (fun c => negb (unsafe_url_byte c)) (list_ascii_of_string r) in
  match rest with
  | "/"%char :: "/"%char :: rest' =>
      let netloc := fst (split_netloc rest') in
      let has_open := bool_decide ("["%char ∈ netloc) in
      let has_close := bool_decide ("]"%char ∈ netloc) in
      if (has_open && negb has_close) || (has_close && negb has_open)
      then None
      else Some (map ascii_lower pre, netloc)
  | _ => Some (map ascii_lower pre, [])
  end.
Proof.
  intros Hne Ha. unfold urlsplit_scheme_netloc. cbv zeta.
  change (filter (fun c => negb (unsafe_url_byte c))
            (lstrip_c0 (list_ascii_of_string (string_of_list_ascii pre ++ ":" ++ r))))
    with (url_cleaned (string_of_list_ascii pre ++ ":" ++ r)).
  rewrite !(cleaned_scheme pre r Hne Ha).
  pose proof (split_colon_app _ (filter (fun c => negb (unsafe_url_byte c)) (list_ascii_of_string r))
                (alpha_no_colon pre Ha)) as Hsc.
  set (post := filter (fun c => negb (unsafe_url_byte c)) (list_ascii_of_string r)) in *.
  destruct pre as [|a pre']; [congruence|].
  change ((a :: pre') ++ ":"%char :: post)%list with (a :: (pre' ++ ":"%char :: post))%list in *.
  cbn iota beta. rewrite Hsc.
  rewrite bool_decide_true by congruence.
  pose proof Ha as Ha'. simpl in Ha'. apply andb_prop in Ha' as [Ha1 _].
  rewrite Ha1, (alpha_scheme_chars _ Ha). reflexivity.
Qed.

Lemma alpha_of_lower c : is_alpha (ascii_lower c) = true -> is_alpha c = true.
Proof. destruct c as [[] [] [] [] [] [] [] []]; vm_compute; intros H; congruence. Qed.

Lemma plain_facts c : plain_netloc_char c = true ->
  unsafe_url_byte c = false /\ c <> "["%char /\ c <> "]"%char /\
  bool_decide (c = "/"%char) || bool_decide (c = "?"%char)
    || bool_decide (c = "#"%char) = false.
Proof.
  unfold plain_netloc_char. intros H.
  repeat match goal with
         | H : context [bool_decide ?P] |- _ =>
             destruct (bool_decide_reflect P); simpl in H; try discriminate
         end.
  destruct (unsafe_url_byte c); [discriminate|]. repeat split; assumption || reflexivity.
Qed.

Lemma filter_plain (host tail : list ascii) :
  forallb plain_netloc_char host = true ->
  filter (fun c => negb (unsafe_url_byte c)) (host ++ tail)%list =
  (host ++ filter (fun c => negb (unsafe_url_byte c)) tail)%list.
Proof.
  intros H. rewrite filter_app, filter_safe; [reflexivity|].
  induction host as [|c host IH]; simpl in *; [reflexivity|].
  apply andb_prop in H as [Hc Hh]. destruct (plain_facts c Hc) as [Hu _].
  rewrite Hu, IH by exact Hh. reflexivity.
Qed.

Lemma ends_netloc_filter (l : list ascii) :
  ends_netloc l = true -> ends_netloc (filter (fun c => negb (unsafe_url_byte c)) l) = true.
Proof.
  destruct l as [|c l]; simpl; [reflexivity|]. intros H.
  assert (Hu : unsafe_url_byte c = false).
  { unfold unsafe_url_byte.
    repeat match goal with
           | H : context [bool_decide ?P] |- _ =>
               destruct (bool_decide_reflect P); simpl in H; try discriminate
           end; subst; reflexivity. }
  rewrite filter_cons_True by (rewrite Hu; exact I). exact H.
Qed.

Lemma plain_no_brackets (host : list ascii) :
  forallb plain_netloc_char host = true ->
  ("["%char ∉ host) /\ ("]"%char ∉ host).
Proof.
  induction host as [|c host IH]; simpl; intros H.
  - split; apply not_elem_of_nil.
  - apply andb_prop in H as [Hc Hh]. destruct (plain_facts c Hc) as (_ & Ho & Hc' & _).
    destruct (IH Hh) as [H1 H2].
    split; rewrite elem_of_cons; intros [E|E]; congruence || tauto.
Qed.

Lemma lower_scheme_alpha (pre : list ascii) :
  forallb is_alpha (map ascii_lower pre) = true -> forallb is_alpha pre = true.
Proof.
  induction pre as [|c pre IH]; simpl; [reflexivity|]. intros H.
  apply andb_prop in H as [Hc Hp]. rewrite (alpha_of_lower c Hc). apply IH, Hp.
Qed.

Lemma netloc_part_inv (scheme rest sc nl : list ascii) :
  match rest with
  | "/"%char :: "/"%char :: rest' =>
      let netloc := fst (split_netloc rest') in
      let has_open := bool_decide ("["%char ∈ netloc) in
      let has_close := bool_decide ("]"%char ∈ netloc) in
      if (has_open && negb has_close) || (has_close && negb has_open)
      then None
      else Some (scheme, netloc)
  | _ => Some (scheme, [])
  end = Some (sc, nl) -> nl <> [] ->
  sc = scheme /\ exists rest', rest = ("/"%char :: "/"%char :: rest')%list /\
                               nl = fst (split_netloc rest').
Proof.
  intros E Hn. destruct rest as [|a [|b rest']];
    [injection E as <- <-; congruence | |].
  - destruct a as [[] [] [] [] [] [] [] []]; injection E as <- <-; congruence.
  - destruct a as [[] [] [] [] [] [] [] []];
      try (injection E as <- <-; congruence).
    destruct b as [[] [] [] [] [] [] [] []];
      try (injection E as <- <-; congruence).
    cbv zeta in E. destruct (_ || _); [discriminate|].
    injection E as <- <-. split; [reflexivity|]. exists rest'. split; reflexivity.
Qed.

(** X: [urlsplit] strips leading C0 control characters and spaces, so
    [is_valid_url] does not see them. *)
Theorem is_valid_url_lstrip (c : ascii) (u : string) :
  c0_control_or_space c = true -> is_valid_url (String c u) = is_valid_url u.
Proof.
  intros Hc. apply is_valid_url_cleaned. unfold url_cleaned. simpl. rewrite Hc. reflexivity.
Qed.

Lemma is_valid_url_lstrip_witness :
  c0_control_or_space " "%char = true /\
  is_valid_url (String " "%char "http://example.com") = is_valid_url "http://example.com".
Proof. split; [reflexivity|]. apply is_valid_url_lstrip. reflexivity. Defined.

(** X: [urlsplit] deletes every tab, carriage return and line feed, wherever
    it is, so inserting one never changes [is_valid_url]. *)
Theorem is_valid_url_unsafe_bytes (u1 u2 : string) (c : ascii) :
  unsafe_url_byte c = true -> is_valid_url (u1 ++ String c u2) = is_valid_url (u1 ++ u2).
Proof.
  intros Hc. apply is_valid_url_cleaned. unfold url_cleaned.
  rewrite !list_ascii_of_string_app. simpl. apply cleaned_drop_unsafe, Hc.
Qed.

Lemma is_valid_url_unsafe_bytes_witness :
  unsafe_url_byte "010"%char = true /\
  is_valid_url ("ht" ++ String "010"%char "tp://a.b") = is_valid_url ("ht" ++ "tp://a.b").
Proof. split; [reflexivity|]. apply is_valid_url_unsafe_bytes. reflexivity. Defined.

(** X: a scheme made of letters is compared in lower case: writing it in
    lower case never changes [is_valid_url]. *)
Theorem is_valid_url_scheme_case (pre : list ascii) (r : string) :
  pre <> [] -> forallb is_alpha pre = true ->
  is_valid_url (string_of_list_ascii pre ++ ":" ++ r) =
  is_valid_url (string_of_list_ascii (map ascii_lower pre) ++ ":" ++ r).
Proof.
  intros Hne Ha. destruct (alpha_lower pre Ha) as [Hla Hll].
  assert (Hne' : map ascii_lower pre <> []) by (destruct pre; simpl; congruence).
  unfold is_valid_url. rewrite (urlsplit_alpha_scheme pre r Hne Ha),
    (urlsplit_alpha_scheme _ r Hne' Hla), Hll. reflexivity.
Qed.

Lemma is_valid_url_scheme_case_witness :
  is_valid_url (string_of_list_ascii (list_ascii_of_string "HtTp") ++ ":" ++ "//x") =
  is_valid_url (string_of_list_ascii (map ascii_lower (list_ascii_of_string "HtTp")) ++ ":" ++ "//x").
Proof. apply is_valid_url_scheme_case; [discriminate | reflexivity]. Defined.

(** X: [scheme://host] followed by nothing or by a path, query or fragment
    is valid when the scheme is [http] or [https] in any case and the host
    is nonempty, has none of ["/?#[]"] and none of the deleted bytes. *)
Theorem is_valid_url_http_host (sch host tail : string) :
  (map ascii_lower (list_ascii_of_string sch) = list_ascii_of_string "http" \/
   map ascii_lower (list_ascii_of_string sch) = list_ascii_of_string "https") ->
  host <> ""%string -> forallb plain_netloc_char (list_ascii_of_string host) = true ->
  ends_netloc (list_ascii_of_string tail) = true ->
  is_valid_url (sch ++ "://" ++ host ++ tail) = true.
Proof.
  intros Hs Hh Hp Ht.
  set (pre := list_ascii_of_string sch) in *.
  assert (Ha : forallb is_alpha pre = true).
  { apply lower_scheme_alpha. destruct Hs as [-> | ->]; reflexivity. }
  assert (Hne : pre <> []) by (intros E; rewrite E in Hs; destruct Hs; discriminate).
  rewrite <- (string_of_list_ascii_of_string sch). fold pre.
  change ("://" ++ host ++ tail)%string with (":" ++ ("//" ++ host ++ tail))%string.
  unfold is_valid_url. rewrite (urlsplit_alpha_scheme pre _ Hne Ha). cbv zeta.
  simpl list_ascii_of_string. rewrite !list_ascii_of_string_app. cbn [list_ascii_of_string app].
  rewrite filter_cons_True by exact I. rewrite filter_cons_True by exact I.
  rewrite (filter_plain _ _ Hp).
  rewrite (split_netloc_app _ _ Hp), (split_netloc_end _ (ends_netloc_filter _ Ht)).
  simpl fst. rewrite app_nil_r.
  destruct (plain_no_brackets _ Hp) as [Ho Hc].
  rewrite (bool_decide_false _ Ho), (bool_decide_false _ Hc). simpl.
  assert (Hhe : list_ascii_of_string host <> []) by (destruct host; simpl; congruence).
  rewrite (bool_decide_false (list_ascii_of_string host = []) Hhe).
  destruct Hs as [-> | ->]; reflexivity.
Qed.

Lemma is_valid_url_http_host_witness :
  is_valid_url ("HTTPS" ++ "://" ++ "example.com" ++ "/index.html?q=1") = true.
Proof.
  apply is_valid_url_http_host; [right; reflexivity | discriminate | reflexivity | reflexivity].
Defined.

(** X: conversely, a URL that [is_valid_url] accepts is, once cleaned,
    a scheme equal to [http] or [https] up to case, a colon, ["//"] and a
    nonempty netloc. *)
Theorem is_valid_url_shape (u : string) :
  is_valid_url u = true ->
  exists sch rest,
    url_cleaned u = (sch ++ ":"%char :: "/"%char :: "/"%char :: rest)%list /\
    (map ascii_lower sch = list_ascii_of_string "http" \/
     map ascii_lower sch = list_ascii_of_string "https") /\
    fst (split_netloc rest) <> [].
Proof.
  unfold is_valid_url. destruct (urlsplit_scheme_netloc u) as [[sc nl]|] eqn:E; [|discriminate].
  intros H. apply andb_prop in H as [Hs Hn].
  assert (Hsc : sc = list_ascii_of_string "http" \/ sc = list_ascii_of_string "https").
  { apply orb_prop in Hs as [Hs|Hs]; apply bool_decide_eq_true in Hs; tauto. }
  assert (Hnl : nl <> []) by (intros ->; discriminate Hn).
  unfold urlsplit_scheme_netloc in E.
  change (filter (fun c => negb (unsafe_url_byte c)) (lstrip_c0 (list_ascii_of_string u)))
    with (url_cleaned u) in E.
  assert (Hsc' : sc <> []) by (destruct Hsc as [-> | ->]; discriminate).
  destruct (url_cleaned u) as [|c0 l] eqn:Eu.
  { cbn iota beta in E. injection E as <- <-. congruence. }
  destruct (split_colon (c0 :: l)) as [[pre post]|] eqn:Es.
  2: { cbn iota beta in E. apply (netloc_part_inv [] (c0 :: l)) in E as [-> _];
       [congruence | exact Hnl]. }
  destruct (bool_decide (pre <> []) && is_alpha c0 && forallb is_scheme_char pre) eqn:Ec.
  2: { cbn iota beta in E.
       apply (netloc_part_inv [] (c0 :: l)) in E as [-> _]; [congruence | exact Hnl]. }
  cbn iota beta in E.
  apply (netloc_part_inv (map ascii_lower pre) post) in E as [-> (rest' & -> & ->)];
    [|exact Hnl].
  exists pre, rest'. split; [exact (split_colon_inv _ _ _ Es)|]. split; assumption.
Qed.

Lemma is_valid_url_shape_witness :
  is_valid_url " HTTP://example.com/a" = true /\
  exists sch rest,
    url_cleaned " HTTP://example.com/a" = (sch ++ ":"%char :: "/"%char :: "/"%char :: rest)%list /\
    (map ascii_lower sch = list_ascii_of_string "http" \/
     map ascii_lower sch = list_ascii_of_string "https") /\
    fst (split_netloc rest) <> [].
Proof.
  split; [reflexivity|]. apply is_valid_url_shape. reflexivity.
Defined.

End URLFacts.

(* ------------------------------------------------------------------ *)
(** ** What a successful fetch returns *)

Module FetchFacts.

Lemma content_type_test_passed (et : option string) (ct : string) :
  match et with
  | Some et => if bool_decide (et <> "") && negb (py_in et ct) then false else true
  | None => true
  end = true -> content_type_ok et ct.
Proof.
  destruct et as [et|]; simpl; [|trivial].
  destruct (bool_decide (et <> "")) eqn:E1; destruct (py_in et ct) eqn:E2; simpl;
    try discriminate; try (right; reflexivity).
  intros _. left. apply bool_decide_eq_false in E1. destruct (decide (et = "")); tauto.
Qed.

Lemma aiohttp_try_body_ok url config os start w :
  match aiohttp_try_body url config os start w with
  | ((inl sr, _), _) =>
      exists sr0,
        (ScrapedResponse.url sr0 = url /\ ScrapedResponse.success sr0 = true /\
         ScrapedResponse.error sr0 = None /\ (ScrapedResponse.status_code sr0 < 400)%Z /\
         content_type_ok (WebscrapeConfig.expected_content_type config)
           (ScrapedResponse.content_type sr0)) /\
        sr = match os with None => sr0 | Some cb => fst (cb sr0) end
  | _ => True
  end.
Proof.
  unfold aiohttp_try_body. destruct (session_get url w) as [[[m|m|m|m]|resp] w1];
    try exact I.
  destruct (bool_decide (Response.status resp = 429%Z) || bool_decide (Response.status resp = 503%Z));
    [exact I|].
  destruct (Z.leb 400 (Response.status resp)) eqn:Est; [exact I|].
  apply Z.leb_gt in Est.
  destruct (negb (Response.text_decodes resp)); [exact I|].
  set (ct := match headers_get (Response.headers resp) "Content-Type" with
             | Some v => v | None => "" end).
  pose proof (content_type_test_passed (WebscrapeConfig.expected_content_type config) ct) as Hct.
  destruct (WebscrapeConfig.expected_content_type config) as [et|].
  - destruct (bool_decide (et <> "") && negb (py_in et ct)) eqn:Ec; [exact I|].
    specialize (Hct eq_refl).
    destruct os as [cb|]; simpl.
    + match goal with |- context [cb ?x] => set (sr0 := x) end.
      destruct (cb sr0) as [sr1 raised] eqn:Ecb. simpl. exists sr0. rewrite Ecb.
      split; [repeat split; first [reflexivity | assumption] | reflexivity].
    + eexists. split; [|reflexivity]. repeat split; first [reflexivity | assumption].
  - specialize (Hct eq_refl).
    destruct os as [cb|]; simpl.
    + match goal with |- context [cb ?x] => set (sr0 := x) end.
      destruct (cb sr0) as [sr1 raised] eqn:Ecb. simpl. exists sr0. rewrite Ecb.
      split; [repeat split; first [reflexivity | assumption] | reflexivity].
    + eexists. split; [|reflexivity]. repeat split; first [reflexivity | assumption].
Qed.

Lemma aiohttp_once_ok url config sg os of w sr :
  fst (webscrape_aiohttp_once url config sg os of w) = inl sr ->
  is_valid_url url = true /\
  exists sr0,
    (ScrapedResponse.url sr0 = url /\ ScrapedResponse.success sr0 = true /\
     ScrapedResponse.error sr0 = None /\ (ScrapedResponse.status_code sr0 < 400)%Z /\
     content_type_ok (WebscrapeConfig.expected_content_type config)
       (ScrapedResponse.content_type sr0)) /\
    sr = match os with None => sr0 | Some cb => fst (cb sr0) end.
Proof.
  unfold webscrape_aiohttp_once. destruct (is_valid_url url) eqn:Ev; [|discriminate].
  simpl negb. cbv iota.
  match goal with |- context [aiohttp_try_body ?u ?c ?o ?st ?w0] =>
    pose proof (aiohttp_try_body_ok u c o st w0) as Hb;
    destruct (aiohttp_try_body u c o st w0) as [[[sr'|e] o'] w1] end.
  - simpl. intros H. injection H as <-. split; [reflexivity | exact Hb].
  - unfold aiohttp_except. destruct e; simpl; discriminate.
Qed.

Lemma requests_session_body_ok url ect start w :
  match requests_session_body url ect start w with
  | (inl sr, _) =>
      ScrapedResponse.url sr = url /\ ScrapedResponse.success sr = true /\
      ScrapedResponse.error sr = None /\
      ((ScrapedResponse.status_code sr < 400)%Z \/ (600 <= ScrapedResponse.status_code sr)%Z) /\
      content_type_ok ect (ScrapedResponse.content_type sr)
  | _ => True
  end.
Proof.
  unfold requests_session_body. destruct (session_get url w) as [[[m|m|m|m]|resp] w1];
    try exact I.
  destruct (requests_raise_for_status resp) eqn:Er; [exact I|].
  assert (Hst : (Response.status resp < 400)%Z \/ (600 <= Response.status resp)%Z).
  { unfold requests_raise_for_status in Er.
    destruct (Z.leb_spec 400 (Response.status resp)), (Z.ltb_spec (Response.status resp) 500),
      (Z.leb_spec 500 (Response.status resp)), (Z.ltb_spec (Response.status resp) 600);
      simpl in Er; try discriminate; lia. }
  set (ct := match headers_get (Response.headers resp) "Content-Type" with
             | Some v => v | None => "" end).
  pose proof (content_type_test_passed ect ct) as Hct.
  destruct ect as [et|].
  - destruct (bool_decide (et <> "") && negb (py_in et ct)) eqn:Ec; [exact I|].
    destruct (bool_decide (Response.status resp = 429%Z) || bool_decide (Response.status resp = 503%Z));
      [exact I|].
    simpl. repeat split; try reflexivity; [exact Hst|]. apply Hct. reflexivity.
  - destruct (bool_decide (Response.status resp = 429%Z) || bool_decide (Response.status resp = 503%Z));
      [exact I|].
    simpl. repeat split; try reflexivity; exact Hst.
Qed.

Lemma requests_once_ok url ect rl w sr :
  fst (webscrape_requests_once url ect rl w) = inl sr ->
  is_valid_url url = true /\
  ScrapedResponse.url sr = url /\ ScrapedResponse.success sr = true /\
  ScrapedResponse.error sr = None /\
  ((ScrapedResponse.status_code sr < 400)%Z \/ (600 <= ScrapedResponse.status_code sr)%Z) /\
  content_type_ok ect (ScrapedResponse.content_type sr).
Proof.
  unfold webscrape_requests_once. destruct (is_valid_url url) eqn:Ev; [|discriminate].
  simpl negb. cbv iota.
  match goal with |- context [requests_session_body ?u ?e ?st ?w0] =>
    pose proof (requests_session_body_ok u e st w0) as Hb;
    destruct (requests_session_body u e st w0) as [[sr'|e'] w1] end.
  - simpl. intros H. injection H as <-. split; [reflexivity | exact Hb].
  - unfold requests_except. destruct e'; simpl; discriminate.
Qed.

(** X: a value returned by the decorated [webscrape_aiohttp] comes from an
    attempt on a valid URL, which built a success record: the URL given,
    [success = True], no error, a status below 400 and a content type that
    passed the expected-type test.  Without [on_success] that record is the
    value returned; with it, the value returned is the same object with the
    fields the callback left in it. *)
Theorem webscrape_aiohttp_success url config sg os of w sr :
  fst (fst (webscrape_aiohttp url config sg os of w)) = inl sr ->
  is_valid_url url = true /\
  exists sr0,
    (ScrapedResponse.url sr0 = url /\ ScrapedResponse.success sr0 = true /\
     ScrapedResponse.error sr0 = None /\ (ScrapedResponse.status_code sr0 < 400)%Z /\
     content_type_ok (WebscrapeConfig.expected_content_type config)
       (ScrapedResponse.content_type sr0)) /\
    sr = match os with None => sr0 | Some cb => fst (cb sr0) end.
Proof.
  unfold webscrape_aiohttp, on_exception.
  destruct (Outcomes.retry_exception_last (webscrape_aiohttp_once url config sg os of)
              retry_on DEFAULT_MAX_RETRIES (inject_Z DEFAULT_MAX_TIME) w) as [wl ->];
    [unfold DEFAULT_MAX_RETRIES; lia|].
  apply aiohttp_once_ok.
Qed.

Lemma webscrape_aiohttp_success_witness :
  let os := Some (fun sr : ScrapedResponse.t =>
              (ScrapedResponse.mk "changed" (ScrapedResponse.status_code sr)
                 (ScrapedResponse.content sr) (ScrapedResponse.text sr)
                 (ScrapedResponse.headers sr) (ScrapedResponse.elapsed_time sr)
                 (ScrapedResponse.content_type sr) false (Some "marked"), None)) in
  let r := webscrape_aiohttp "https://example.com" (config_with (Some "text/html") None)
             true os None (world_with ∅ 0 (inr resp_html)) in
  exists sr, fst (fst r) = inl sr /\ ScrapedResponse.url sr = "changed" /\
  (is_valid_url "https://example.com" = true /\
   exists sr0,
     (ScrapedResponse.url sr0 = "https://example.com" /\ ScrapedResponse.success sr0 = true /\
      ScrapedResponse.error sr0 = None /\ (ScrapedResponse.status_code sr0 < 400)%Z /\
      content_type_ok (Some "text/html") (ScrapedResponse.content_type sr0)) /\
     sr = match os with None => sr0 | Some cb => fst (cb sr0) end).
Proof.
  intros os. cbv zeta. eexists. split; [vm_compute; reflexivity|].
  split; [reflexivity|].
  apply (webscrape_aiohttp_success "https://example.com" (config_with (Some "text/html") None)
           true os None (world_with ∅ 0 (inr resp_html))).
  vm_compute. reflexivity.
Defined.

(** X: a value returned by the decorated [webscrape_requests] is a success
    record for the URL given, with no error and a content type that passed
    the expected-type test; [raise_for_status()] rejects only the statuses
    400 to 599, so the status is below 400 or at least 600. *)
Theorem webscrape_requests_success url ect rl w sr :
  fst (fst (webscrape_requests url ect rl w)) = inl sr ->
  is_valid_url url = true /\
  ScrapedResponse.url sr = url /\ ScrapedResponse.success sr = true /\
  ScrapedResponse.error sr = None /\
  ((ScrapedResponse.status_code sr < 400)%Z \/ (600 <= ScrapedResponse.status_code sr)%Z) /\
  content_type_ok ect (ScrapedResponse.content_type sr).
Proof.
  unfold webscrape_requests, on_exception.
  destruct (Outcomes.retry_exception_last (webscrape_requests_once url ect rl)
              retry_on DEFAULT_MAX_RETRIES (inject_Z DEFAULT_MAX_TIME) w) as [wl ->];
    [unfold DEFAULT_MAX_RETRIES; lia|].
  apply requests_once_ok.
Qed.

(** A status of 600 passes [raise_for_status()] and is returned as a
    success. *)
Lemma webscrape_requests_success_witness :
  let r := webscrape_requests "https://example.com" None None
             (world_with ∅ 0 (inr (resp_with 600 "Odd" "text/plain"))) in
  exists sr, fst (fst r) = inl sr /\ ScrapedResponse.status_code sr = 600%Z /\
  (is_valid_url "https://example.com" = true /\
   ScrapedResponse.url sr = "https://example.com" /\ ScrapedResponse.success sr = true /\
   ScrapedResponse.error sr = None /\
   ((ScrapedResponse.status_code sr < 400)%Z \/ (600 <= ScrapedResponse.status_code sr)%Z) /\
   content_type_ok None (ScrapedResponse.content_type sr)).
Proof.
  cbv zeta. eexists. split; [vm_compute; reflexivity|]. split; [vm_compute; reflexivity|].
  apply (webscrape_requests_success "https://example.com" None None
           (world_with ∅ 0 (inr (resp_with 600 "Odd" "text/plain")))).
  vm_compute. reflexivity.
Defined.

(** X: [scrape_url_list_sync] stops at the first fetch that raises: the URLs
    after it are never fetched, so the run on a longer list that starts with
    a failing prefix is the run on that prefix. *)
Theorem scrape_url_list_sync_stops pre post w e w' :
  scrape_url_list_sync pre w = (inr e, w') ->
  scrape_url_list_sync (pre ++ post) w = (inr e, w').
Proof.
  revert w. induction pre as [|url pre IH]; intros w; simpl; [discriminate|].
  destruct (webscrape_requests url None None w) as [[[sr|e0] w1] n]; [|tauto].
  specialize (IH w1).
  destruct (scrape_url_list_sync pre w1) as [[l|e1] w2]; [discriminate|].
  intros H. rewrite (IH H). reflexivity.
Qed.

Lemma scrape_url_list_sync_stops_witness :
  let w := world_with ∅ 0 (inr resp_html) in
  exists e w', scrape_url_list_sync ["not a url"] w = (inr e, w') /\
  scrape_url_list_sync (["not a url"] ++ ["https://example.com"]) w = (inr e, w').
Proof.
  cbv zeta. do 2 eexists. split; [vm_compute; reflexivity|].
  apply scrape_url_list_sync_stops. vm_compute. reflexivity.
Defined.

(** X: when [scrape_url_list_sync] returns, it returns one success record
    per URL, in the order of the list. *)
Theorem scrape_url_list_sync_results url_list w rs :
  fst (scrape_url_list_sync url_list w) = inl rs ->
  map ScrapedResponse.url rs = url_list /\ Forall (fun sr => ScrapedResponse.success sr = true) rs.
Proof.
  revert w rs. induction url_list as [|url rest IH]; intros w rs; simpl.
  - intros H. injection H as <-. split; [reflexivity | constructor].
  - pose proof (webscrape_requests_success url None None w) as Hs.
    destruct (webscrape_requests url None None w) as [[[sr|e0] w1] n]; [|discriminate].
    specialize (Hs sr eq_refl) as (_ & Hu & Hok & _).
    specialize (IH w1).
    destruct (scrape_url_list_sync rest w1) as [[l|e1] w2]; [|discriminate].
    simpl. intros H. injection H as <-. destruct (IH l eq_refl) as [Hm Hf].
    simpl. rewrite Hu, Hm. split; [reflexivity | constructor; assumption].
Qed.

Lemma scrape_url_list_sync_results_witness :
  let w := world_with ∅ 0 (inr resp_html) in
  exists rs, fst (scrape_url_list_sync ["https://a.example"; "http://b.example/x"] w) = inl rs /\
  (map ScrapedResponse.url rs = ["https://a.example"; "http://b.example/x"] /\
   Forall (fun sr => ScrapedResponse.success sr = true) rs).
Proof.
  cbv zeta. eexists. split; [vm_compute; reflexivity|].
  apply scrape_url_list_sync_results with (w := world_with ∅ 0 (inr resp_html)).
  vm_compute. reflexivity.
Defined.

End FetchFacts.

(* ------------------------------------------------------------------ *)
(** ** One [wait()] call that sleeps exactly as asked *)

Module WaitFacts.
Import RequestRateLimiter.
Local Open Scope Q_scope.

(** X: when the sleep ends on time and no time passes after it,
    [wait()] moves [last_request_time] to the later of the current time and
    [last_request_time + min_interval], returns that time as the new clock
    and keeps [min_interval]. *)
Theorem wait_exact (self : t) (c : Q) :
  let '(self', now) := wait self c 0 0 in
  min_interval self' = min_interval self /\ last_request_time self' = now /\
  now == Qmax c (last_request_time self + min_interval self).
Proof.
  unfold wait. destruct (Qlt_le_dec (c - last_request_time self) (min_interval self)) as [Hl|Hl];
    simpl; (split; [reflexivity|]); (split; [reflexivity|]).
  - rewrite Q.max_r by lra. lra.
  - rewrite Q.max_l by lra. lra.
Qed.

End WaitFacts.

(* ------------------------------------------------------------------ *)
(** ** Sessions opened and closed by the fetches *)

Module SessionFacts.

Lemma count_emit p ev w :
  count_events p (emit ev w) = (count_events p w + if p ev then 1 else 0)%nat.
Proof.
  unfold count_events, emit. simpl. rewrite List.filter_app, length_app. simpl.
  destruct (p ev); simpl; lia.
Qed.

Lemma count_set_clock p t w : count_events p (set_clock t w) = count_events p w.
Proof. reflexivity. Qed.

Section Counting.
Variable p : Event -> bool.
Hypothesis p_log : forall l m, p (EvLog l m) = false.
Hypothesis p_sleep : forall s, p (EvSleep s) = false.
Hypothesis p_net : forall u, p (EvNetCall u) = false.
Hypothesis p_callback : forall n a, p (EvCallback n a) = false.
Hypothesis p_backoff : forall t e s, p (EvBackoff t e s) = false.
Hypothesis p_giveup : forall t e, p (EvGiveup t e) = false.

Ltac count_rw :=
  unfold logging_error, logging_exception in *;
  repeat (rewrite ?count_emit, ?p_log, ?p_sleep, ?p_net, ?p_callback, ?p_backoff, ?p_giveup);
  try lia.

Lemma count_limiter_wait l w : count_events p (limiter_wait l w) = count_events p w.
Proof.
  unfold limiter_wait. destruct (store w !! l); [|reflexivity].
  destruct (RequestRateLimiter.wait _ _ _ _). reflexivity.
Qed.

Lemma count_throttle (rl : option obj_id) w :
  count_events p (match rl with Some l => limiter_wait l w | None => w end) = count_events p w.
Proof. destruct rl; [apply count_limiter_wait | reflexivity]. Qed.

Lemma count_session_get url w : count_events p (snd (session_get url w)) = count_events p w.
Proof.
  unfold session_get. destruct (net w (net_calls w) url). simpl.
  rewrite count_emit, p_net. unfold count_events. simpl. lia.
Qed.

Lemma count_run_on_failure of sr w : count_events p (run_on_failure of sr w) = count_events p w.
Proof.
  unfold run_on_failure. destruct of as [cb|]; [|reflexivity].
  destruct sr as [sr|]; simpl; [destruct (snd (cb sr))|]; count_rw.
Qed.

Lemma count_aiohttp_try_body url config os start w :
  count_events p (snd (aiohttp_try_body url config os start w)) = count_events p w.
Proof.
  unfold aiohttp_try_body. pose proof (count_session_get url w) as Hg.
  destruct (session_get url w) as [ans w1]. simpl in Hg.
  destruct ans as [[m|m|m|m]|resp]; simpl; try exact Hg.
  repeat case_match; simplify_eq; simpl; count_rw.
Qed.

Lemma count_aiohttp_except url of e sr w :
  count_events p (snd (aiohttp_except url of e sr w)) = count_events p w.
Proof.
  unfold aiohttp_except. destruct e; simpl; rewrite ?count_run_on_failure; count_rw.
Qed.

Lemma count_aiohttp_once url config sg os of w :
  count_events p (snd (webscrape_aiohttp_once url config sg os of w)) =
  (count_events p w +
   if is_valid_url url && negb sg
   then ((if p EvSessionOpen then 1 else 0) + (if p EvSessionClose then 1 else 0))%nat
   else 0)%nat.
Proof using p_log p_sleep p_net p_callback p_backoff p_giveup.
  unfold webscrape_aiohttp_once. destruct (is_valid_url url); simpl; [|lia].
  match goal with |- context [aiohttp_try_body ?u ?c ?o ?st ?w0] =>
    pose proof (count_aiohttp_try_body u c o st w0) as Hb;
    destruct (aiohttp_try_body u c o st w0) as [[r sr] w1] end.
  simpl in Hb.
  assert (Hr : count_events p (snd (match r with inl sr0 => (inl sr0, w1)
                                      | inr e => aiohttp_except url of e sr w1 end))
               = count_events p w1).
  { destruct r; [reflexivity | apply count_aiohttp_except]. }
  destruct (match r with inl sr0 => (inl sr0, w1) | inr e => aiohttp_except url of e sr w1 end)
    as [r' w2].
  simpl in Hr |- *.
  destruct sg; simpl in *; rewrite ?count_emit, ?count_throttle in Hb; count_rw.
Qed.

Lemma count_requests_session_body url ect start w :
  count_events p (snd (requests_session_body url ect start w)) = count_events p w.
Proof.
  unfold requests_session_body. pose proof (count_session_get url w) as Hg.
  destruct (session_get url w) as [ans w1]. simpl in Hg.
  repeat case_match; simpl; count_rw.
Qed.

Lemma count_requests_once url ect rl w :
  count_events p (snd (webscrape_requests_once url ect rl w)) =
  (count_events p w +
   if is_valid_url url
   then ((if p EvSessionOpen then 1 else 0) + (if p EvSessionClose then 1 else 0))%nat
   else 0)%nat.
Proof using p_log p_sleep p_net p_callback p_backoff p_giveup.
  unfold webscrape_requests_once. rewrite <- (count_throttle rl w).
  destruct (is_valid_url url); simpl; [|lia].
  match goal with |- context [requests_session_body ?u ?e ?st ?w0] =>
    pose proof (count_requests_session_body u e st w0) as Hb;
    destruct (requests_session_body u e st w0) as [r w1] end.
  simpl in Hb. rewrite count_emit in Hb.
  destruct r as [sr|e]; simpl.
  - count_rw.
  - unfold requests_except. destruct e; simpl; count_rw.
Qed.

Lemma count_retry_go {A} (target : World -> Result A) exception max_time (k : nat) :
  (forall w, count_events p (snd (target w)) = (count_events p w + k)%nat) ->
  forall left tries start w r w' n,
  retry_go target exception max_time left tries start w = ((r, w'), n) ->
  count_events p w' = (count_events p w + k * (n - tries))%nat /\ (tries < n)%nat.
Proof using p_log p_sleep p_net p_callback p_backoff p_giveup.
  intros Hk left. induction left as [|left IH]; intros tries start w r w' n E; simpl in E;
    pose proof (Hk w) as Hw; destruct (target w) as [[v|e] w1]; simpl in Hw.
  - injection E as <- <- <-. split; [|lia]. rewrite Hw. nia.
  - destruct (negb (exception e)); injection E as <- <- <-; split; try lia;
      count_rw; rewrite Hw; nia.
  - injection E as <- <- <-. split; [|lia]. rewrite Hw. nia.
  - destruct (negb (exception e)).
    + injection E as <- <- <-. split; [|lia]. rewrite Hw. nia.
    + destruct (Qle_bool max_time (clock w - start)).
      * injection E as <- <- <-. split; [|lia]. count_rw; rewrite ?Hw; nia.
      * apply IH in E as [Hc Hn]. split; [|lia].
        rewrite Hc. unfold sleep. count_rw.
        rewrite count_set_clock, count_emit, p_backoff. unfold count_events in *. simpl. nia.
Qed.

End Counting.

Ltac event_kind := intros; reflexivity.

(** X: a call of the decorated [webscrape_aiohttp] opens and closes one
    [ClientSession] per attempt when no session is given and the URL is
    valid, and none otherwise: a given session is never closed, and an
    invalid URL raises before any session exists. *)
Theorem webscrape_aiohttp_sessions url config sg os of w r w' n :
  webscrape_aiohttp url config sg os of w = ((r, w'), n) ->
  count_events is_session_open w' =
    (count_events is_session_open w + if is_valid_url url && negb sg then n else 0)%nat /\
  count_events is_session_close w' =
    (count_events is_session_close w + if is_valid_url url && negb sg then n else 0)%nat.
Proof.
  unfold webscrape_aiohttp, on_exception, retry_exception. intros E.
  set (k := if is_valid_url url && negb sg then 1%nat else 0%nat).
  assert (Hk : forall q, (forall l m, q (EvLog l m) = false) -> (forall s, q (EvSleep s) = false) ->
     (forall u, q (EvNetCall u) = false) -> (forall n a, q (EvCallback n a) = false) ->
     (forall t e s, q (EvBackoff t e s) = false) -> (forall t e, q (EvGiveup t e) = false) ->
     q EvSessionOpen || q EvSessionClose = true -> negb (q EvSessionOpen && q EvSessionClose) = true ->
     count_events q w' = (count_events q w + if is_valid_url url && negb sg then n else 0)%nat).
  { intros q H1 H2 H3 H4 H5 H6 H7 H8.
    assert (Hs : forall w0, count_events q (snd (webscrape_aiohttp_once url config sg os of w0)) =
                            (count_events q w0 + k)%nat).
    { intros w0. rewrite (count_aiohttp_once q H1 H2 H3 H4 H5 H6). unfold k.
      destruct (q EvSessionOpen), (q EvSessionClose); simpl in H7, H8; try discriminate;
        destruct (is_valid_url url && negb sg); reflexivity. }
    destruct (count_retry_go q H1 H2 H3 H4 H5 H6 _ _ _ k Hs _ _ _ _ _ _ _ E) as [Hc _].
    rewrite Hc. unfold k. destruct (is_valid_url url && negb sg); lia. }
  split; apply Hk; event_kind.
Qed.

(** Three attempts that fail to connect open and close three sessions. *)
Lemma webscrape_aiohttp_sessions_witness :
  let w := world_with ∅ 0 (inl (TConnect "Connection refused")) in
  let res := webscrape_aiohttp "https://example.com" (config_with None None) false None None w in
  snd res = 3%nat /\
  (count_events is_session_open (snd (fst res)) =
     (count_events is_session_open w +
      if is_valid_url "https://example.com" && negb false then snd res else 0)%nat /\
   count_events is_session_close (snd (fst res)) =
     (count_events is_session_close w +
      if is_valid_url "https://example.com" && negb false then snd res else 0)%nat).
Proof.
  cbv zeta. split; [vm_compute; reflexivity|].
  apply (webscrape_aiohttp_sessions "https://example.com" (config_with None None) false None None
           (world_with ∅ 0 (inl (TConnect "Connection refused")))
           (fst (fst (webscrape_aiohttp "https://example.com" (config_with None None) false None None
                        (world_with ∅ 0 (inl (TConnect "Connection refused"))))))
           (snd (fst (webscrape_aiohttp "https://example.com" (config_with None None) false None None
                        (world_with ∅ 0 (inl (TConnect "Connection refused"))))))
           (snd (webscrape_aiohttp "https://example.com" (config_with None None) false None None
                   (world_with ∅ 0 (inl (TConnect "Connection refused")))))).
  vm_compute. reflexivity.
Defined.

(** X: a call of the decorated [webscrape_requests] opens and closes one
    [requests.Session] per attempt when the URL is valid, and none when it
    is not. *)
Theorem webscrape_requests_sessions url ect rl w r w' n :
  webscrape_requests url ect rl w = ((r, w'), n) ->
  count_events is_session_open w' =
    (count_events is_session_open w + if is_valid_url url then n else 0)%nat /\
  count_events is_session_close w' =
    (count_events is_session_close w + if is_valid_url url then n else 0)%nat.
Proof.
  unfold webscrape_requests, on_exception, retry_exception. intros E.
  set (k := if is_valid_url url then 1%nat else 0%nat).
  assert (Hk : forall q, (forall l m, q (EvLog l m) = false) -> (forall s, q (EvSleep s) = false) ->
     (forall u, q (EvNetCall u) = false) -> (forall n a, q (EvCallback n a) = false) ->
     (forall t e s, q (EvBackoff t e s) = false) -> (forall t e, q (EvGiveup t e) = false) ->
     q EvSessionOpen || q EvSessionClose = true -> negb (q EvSessionOpen && q EvSessionClose) = true ->
     count_events q w' = (count_events q w + if is_valid_url url then n else 0)%nat).
  { intros q H1 H2 H3 H4 H5 H6 H7 H8.
    assert (Hs : forall w0, count_events q (snd (webscrape_requests_once url ect rl w0)) =
                            (count_events q w0 + k)%nat).
    { intros w0. rewrite (count_requests_once q H1 H2 H3 H4 H5 H6). unfold k.
      destruct (q EvSessionOpen), (q EvSessionClose); simpl in H7, H8; try discriminate;
        destruct (is_valid_url url); reflexivity. }
    destruct (count_retry_go q H1 H2 H3 H4 H5 H6 _ _ _ k Hs _ _ _ _ _ _ _ E) as [Hc _].
    rewrite Hc. unfold k. destruct (is_valid_url url); lia. }
  split; apply Hk; event_kind.
Qed.

Lemma webscrape_requests_sessions_witness :
  let w := world_with ∅ 0 (inr (resp_with 503 "Service Unavailable" "text/html")) in
  let res := webscrape_requests "https://example.com" None None w in
  snd res = 3%nat /\
  (count_events is_session_open (snd (fst res)) =
     (count_events is_session_open w + if is_valid_url "https://example.com" then snd res else 0)%nat /\
   count_events is_session_close (snd (fst res)) =
     (count_events is_session_close w + if is_valid_url "https://example.com" then snd res else 0)%nat).
Proof.
  cbv zeta. split; [vm_compute; reflexivity|].
  apply (webscrape_requests_sessions "https://example.com" None None
           (world_with ∅ 0 (inr (resp_with 503 "Service Unavailable" "text/html")))
           (fst (fst (webscrape_requests "https://example.com" None None
                        (world_with ∅ 0 (inr (resp_with 503 "Service Unavailable" "text/html"))))))
           (snd (fst (webscrape_requests "https://example.com" None None
                        (world_with ∅ 0 (inr (resp_with 503 "Service Unavailable" "text/html"))))))
           (snd (webscrape_requests "https://example.com" None None
                   (world_with ∅ 0 (inr (resp_with 503 "Service Unavailable" "text/html")))))).
  vm_compute. reflexivity.
Defined.

End SessionFacts.

(* ------------------------------------------------------------------ *)
(** ** [modules/check_connectivity.py] *)

Module ConnectivityFacts.
Import Connectivity InternetConnectivityChecker.

Lemma retry_loop_bounds probe rc rd : forall k a,
  (0 <= rc)%Z -> (a + k = Z.to_nat rc + 1)%nat -> (a <= Z.to_nat rc)%nat ->
  fst (retry_loop probe rc rd a k) <> inl None /\
  exists j, snd (retry_loop probe rc rd a k) = repeat rd j /\ (a + j <= Z.to_nat rc)%nat.
Proof.
  induction k as [|k IH]; intros a Hrc Hk Ha; [lia|]. simpl.
  destruct (probe a) as [|msg|e]; simpl.
  - split; [discriminate|]. exists 0%nat. split; [reflexivity | lia].
  - destruct (Z.ltb_spec (Z.of_nat a) rc) as [Hlt|Hge].
    + destruct (IH (S a)) as [Hn (j & Hj & Hle)]; [exact Hrc | lia | lia |].
      destruct (retry_loop probe rc rd (S a) k) as [r sl]. simpl in *.
      split; [exact Hn|]. exists (S j). split; [rewrite Hj; reflexivity | lia].
    + split; [discriminate|]. exists 0%nat. split; [reflexivity | lia].
  - split; [discriminate|]. exists 0%nat. split; [reflexivity | lia].
Qed.

Lemma retry_loop_success probe rc rd : forall m k a,
  (Z.of_nat (a + m) <= rc)%Z -> (m < k)%nat ->
  (forall j, (a <= j < a + m)%nat -> exists msg, probe j = PCaught msg) ->
  probe (a + m)%nat = POk ->
  retry_loop probe rc rd a k = (inl (Some (true, "")), repeat rd m).
Proof.
  induction m as [|m IH]; intros k a Hm Hk Hc Hok; destruct k as [|k]; try lia; simpl.
  - rewrite Nat.add_0_r in Hok. rewrite Hok. reflexivity.
  - destruct (Hc a ltac:(lia)) as [msg Hmsg]. rewrite Hmsg.
    rewrite (proj2 (Z.ltb_lt _ _)) by lia.
    rewrite (IH k (S a)); [reflexivity | lia | lia | |].
    + intros j Hj. apply Hc. lia.
    + replace (S a + m)%nat with (a + S m)%nat by lia. exact Hok.
Qed.

Lemma retry_loop_exhausted probe rc rd msg : forall k a,
  (0 <= rc)%Z -> (a + k = Z.to_nat rc + 1)%nat -> (a <= Z.to_nat rc)%nat ->
  (forall j, (a <= j < Z.to_nat rc)%nat -> exists msg', probe j = PCaught msg') ->
  probe (Z.to_nat rc) = PCaught msg ->
  retry_loop probe rc rd a k = (inl (Some (false, msg)), repeat rd (Z.to_nat rc - a)).
Proof.
  induction k as [|k IH]; intros a Hrc Hk Ha Hc Hl; [lia|]. simpl.
  destruct (Nat.eq_dec a (Z.to_nat rc)) as [->|Hne].
  - rewrite Hl, (proj2 (Z.ltb_ge _ _)) by lia. rewrite Nat.sub_diag. reflexivity.
  - destruct (Hc a ltac:(lia)) as [m Hm]. rewrite Hm.
    rewrite (proj2 (Z.ltb_lt _ _)) by lia.
    rewrite (IH (S a)); [| exact Hrc | lia | lia | | exact Hl].
    + replace (Z.to_nat rc - a)%nat with (S (Z.to_nat rc - S a)) by lia. reflexivity.
    + intros j Hj. apply Hc. lia.
Qed.

Lemma check_loop_sleeps c probe :
  exists j, snd (check_loop c probe) = repeat (retry_delay c) j /\ (j <= Z.to_nat (retry_count c))%nat.
Proof.
  unfold check_loop. destruct (Z.leb_spec 0 (retry_count c)) as [H|H].
  - destruct (retry_loop_bounds probe (retry_count c) (retry_delay c)
                (Z.to_nat (retry_count c + 1)) 0 H ltac:(lia) ltac:(lia)) as [_ (j & Hj & Hle)].
    exists j. split; [exact Hj | lia].
  - replace (Z.to_nat (retry_count c + 1)) with 0%nat by lia. exists 0%nat. split; [reflexivity | lia].
Qed.

Lemma check_loop_negative c probe :
  (retry_count c < 0)%Z -> check_loop c probe = (inl None, []).
Proof.
  intros H. unfold check_loop. replace (Z.to_nat (retry_count c + 1)) with 0%nat by lia. reflexivity.
Qed.

(** X: with [retry_count >= 0], the retry loop of the [_check_*] methods
    always returns a tuple (never falls off the end of the loop), and sleeps
    [retry_delay] at most [retry_count] times. *)
Theorem check_loop_returns c probe :
  (0 <= retry_count c)%Z ->
  fst (check_loop c probe) <> inl None /\
  exists j, snd (check_loop c probe) = repeat (retry_delay c) j /\
            (j <= Z.to_nat (retry_count c))%nat.
Proof.
  intros H. unfold check_loop.
  destruct (retry_loop_bounds probe (retry_count c) (retry_delay c)
              (Z.to_nat (retry_count c + 1)) 0 H ltac:(lia) ltac:(lia)) as [Hn (j & Hj & Hle)].
  split; [exact Hn|]. exists j. split; [exact Hj | lia].
Qed.

Lemma check_loop_returns_witness :
  (0 <= retry_count DEFAULT_CONFIG)%Z /\
  (fst (check_loop DEFAULT_CONFIG (fun _ => PCaught "timed out")) <> inl None /\
   exists j, snd (check_loop DEFAULT_CONFIG (fun _ => PCaught "timed out")) =
             repeat (retry_delay DEFAULT_CONFIG) j /\
             (j <= Z.to_nat (retry_count DEFAULT_CONFIG))%nat).
Proof. split; [vm_compute; discriminate|]. apply check_loop_returns. vm_compute. discriminate. Defined.

(** X: when the first [m] attempts fail with a caught exception and attempt
    [m <= retry_count] succeeds, the check returns success with an empty
    error after [m] sleeps of [retry_delay]. *)
Theorem check_loop_success c probe m :
  (Z.of_nat m <= retry_count c)%Z ->
  (forall j, (j < m)%nat -> exists msg, probe j = PCaught msg) ->
  probe m = POk ->
  check_loop c probe = (inl (Some (true, "")), repeat (retry_delay c) m).
Proof.
  intros Hm Hc Hok. unfold check_loop.
  apply (retry_loop_success probe _ _ m _ 0); [lia | lia | | exact Hok].
  intros j Hj. apply Hc. lia.
Qed.

Lemma check_loop_success_witness :
  check_loop DEFAULT_CONFIG (fun j => if Nat.ltb j 2 then PCaught "timed out" else POk) =
  (inl (Some (true, "")), repeat (retry_delay DEFAULT_CONFIG) 2).
Proof.
  apply check_loop_success; [vm_compute; discriminate | | reflexivity].
  intros j Hj. exists "timed out". destruct (Nat.ltb_spec j 2); [reflexivity | lia].
Defined.

(** X: when every attempt fails with a caught exception, the check returns
    failure with the message of the last attempt, after [retry_count]
    sleeps of [retry_delay]. *)
Theorem check_loop_exhausted c probe msg :
  (0 <= retry_count c)%Z ->
  (forall j, (j < Z.to_nat (retry_count c))%nat -> exists msg', probe j = PCaught msg') ->
  probe (Z.to_nat (retry_count c)) = PCaught msg ->
  check_loop c probe = (inl (Some (false, msg)), repeat (retry_delay c) (Z.to_nat (retry_count c))).
Proof.
  intros Hrc Hc Hl. unfold check_loop.
  rewrite (retry_loop_exhausted probe _ _ msg _ 0 Hrc); [| lia | lia | | exact Hl].
  - rewrite Nat.sub_0_r. reflexivity.
  - intros j Hj. apply Hc. lia.
Qed.

Lemma check_loop_exhausted_witness :
  check_loop DEFAULT_CONFIG (fun j => PCaught (if Nat.eqb j 2 then "last" else "earlier")) =
  (inl (Some (false, "last")), repeat (retry_delay DEFAULT_CONFIG) (Z.to_nat (retry_count DEFAULT_CONFIG))).
Proof.
  apply check_loop_exhausted; [vm_compute; discriminate | | reflexivity].
  intros j Hj. eexists. reflexivity.
Defined.

(** X: a negative [retry_count] makes [range(retry_count + 1)] empty: the
    check methods return [None], and both [is_connected] and
    [get_connection_details] raise [TypeError] when unpacking it, as soon as
    there is a reliable host. *)
Theorem negative_retry_count_type_error c n verbose o1 o2 o3 :
  (retry_count c < 0)%Z -> reliable_hosts c <> [] ->
  o1 ≡ₚ seq 0 (length (reliable_hosts c)) ->
  fst (InternetConnectivityChecker.is_connected c n verbose o1 o2 o3) = inr unpack_none /\
  fst (get_connection_details c n) = inr unpack_none.
Proof.
  intros Hrc Hne Hp.
  assert (Hchk : forall host, check_socket_connection c n host = (inl None, [])).
  { intros host. unfold check_socket_connection. rewrite check_loop_negative by exact Hrc.
    reflexivity. }
  split.
  - destruct o1 as [|i o1].
    { apply Permutation_nil in Hp. destruct (reliable_hosts c); [congruence | discriminate]. }
    assert (Hi : (i < length (reliable_hosts c))%nat).
    { assert (Hin : i ∈ seq 0 (length (reliable_hosts c))) by (rewrite <- Hp; left).
      apply elem_of_seq in Hin. lia. }
    destruct (lookup_lt_is_Some_2 _ _ Hi) as [h Hh].
    unfold InternetConnectivityChecker.is_connected, stage.
    rewrite bool_decide_false by (destruct (reliable_hosts c); [congruence|]; simpl; lia).
    simpl. rewrite Hh, Hchk. reflexivity.
  - unfold get_connection_details.
    destruct (reliable_hosts c) as [|h hs]; [congruence|]. simpl. rewrite Hchk. reflexivity.
Qed.

Lemma negative_retry_count_type_error_witness :
  let c := init [IRetryCount (-1)] in
  let n := mkNet (fun _ _ => POk) (fun _ _ => POk) (fun _ _ => POk) (fun _ => POk) in
  fst (InternetConnectivityChecker.is_connected c n false [2; 0; 1] [0; 1; 2] [0; 1; 2]) = inr unpack_none /\
  fst (get_connection_details c n) = inr unpack_none.
Proof.
  cbv zeta. apply negative_retry_count_type_error; [vm_compute; reflexivity | discriminate |].
  vm_compute. apply (Permutation_cons_append [0; 1]%nat 2%nat).
Defined.

(** X: with no reliable host, [ThreadPoolExecutor(max_workers=0)] raises
    [ValueError] before any check runs. *)
Theorem is_connected_no_reliable_hosts c n verbose o1 o2 o3 :
  reliable_hosts c = [] ->
  InternetConnectivityChecker.is_connected c n verbose o1 o2 o3 =
  (inr (ValueError "max_workers must be greater than 0"), []).
Proof.
  intros H. unfold InternetConnectivityChecker.is_connected, stage. rewrite H. reflexivity.
Qed.

Lemma is_connected_no_reliable_hosts_witness :
  let c := init [IReliableHosts []] in
  let n := mkNet (fun _ _ => POk) (fun _ _ => POk) (fun _ _ => POk) (fun _ => POk) in
  InternetConnectivityChecker.is_connected c n true [] [0; 1; 2] [0; 1; 2] =
  (inr (ValueError "max_workers must be greater than 0"), []).
Proof. cbv zeta. apply is_connected_no_reliable_hosts. reflexivity. Defined.

(** X: once a socket check succeeds, [is_connected] returns [True] without
    consulting the DNS, HTTP or urllib probes: any network that answers the
    socket probes the same way gives the same result and log. *)
Theorem is_connected_socket_short_circuit c n n' verbose o1 o2 o3 o2' o3' rs checks logs :
  stage (check_socket_connection c n) socket_failed verbose (reliable_hosts c) o1 [] [] =
    (inl (rs, checks), logs) ->
  existsb id checks = true ->
  socket_probe n' = socket_probe n ->
  InternetConnectivityChecker.is_connected c n' verbose o1 o2' o3' =
    InternetConnectivityChecker.is_connected c n verbose o1 o2 o3 /\
  fst (InternetConnectivityChecker.is_connected c n verbose o1 o2 o3) = inl true.
Proof.
  intros Hs Hc Hn. unfold InternetConnectivityChecker.is_connected.
  assert (E : check_socket_connection c n' = check_socket_connection c n)
    by (unfold check_socket_connection; rewrite Hn; reflexivity).
  rewrite E, Hs, Hc. simpl. rewrite Hc. simpl. rewrite Hc. simpl. split; [reflexivity|]. rewrite Hc. reflexivity.
Qed.

Lemma is_connected_socket_short_circuit_witness :
  let n := mkNet (fun _ _ => POk) (fun _ _ => PRaise "gaierror") (fun _ _ => PRaise "ConnectionError")
             (fun _ => PRaise "URLError") in
  let n' := mkNet (fun _ _ => POk) (fun _ _ => POk) (fun _ _ => POk) (fun _ => POk) in
  exists rs checks logs,
  stage (check_socket_connection DEFAULT_CONFIG n) socket_failed true
    (reliable_hosts DEFAULT_CONFIG) [1; 0; 2] [] [] = (inl (rs, checks), logs) /\
  (InternetConnectivityChecker.is_connected DEFAULT_CONFIG n' true [1; 0; 2] [] [] =
     InternetConnectivityChecker.is_connected DEFAULT_CONFIG n true [1; 0; 2] [0] [0] /\
   fst (InternetConnectivityChecker.is_connected DEFAULT_CONFIG n true [1; 0; 2] [0] [0]) = inl true).
Proof.
  cbv zeta. do 3 eexists. split; [vm_compute; reflexivity|].
  eapply is_connected_socket_short_circuit; [vm_compute; reflexivity | vm_compute; reflexivity | reflexivity].
Defined.

Lemma collect_verbose check what v1 v2 hosts order : forall res checks l1 l2,
  fst (collect check what v1 hosts order res checks l1) =
  fst (collect check what v2 hosts order res checks l2).
Proof.
  induction order as [|i order IH]; intros res checks l1 l2; simpl; [reflexivity|].
  destruct (hosts !! i) as [host|]; [|apply IH].
  destruct (fst (check host)) as [[[[h ok] e]|]|ex]; try reflexivity.
  destruct ok; apply IH.
Qed.

Lemma stage_verbose check what v1 v2 hosts order checks l1 l2 :
  fst (stage check what v1 hosts order checks l1) = fst (stage check what v2 hosts order checks l2).
Proof. unfold stage. case_bool_decide; [reflexivity | apply collect_verbose]. Qed.


(** X: [verbose] only adds log lines: [is_connected] returns the same value
    (or raises the same exception) with and without it. *)
Theorem is_connected_verbose_same_result c n o1 o2 o3 :
  fst (InternetConnectivityChecker.is_connected c n true o1 o2 o3) =
  fst (InternetConnectivityChecker.is_connected c n false o1 o2 o3).
Proof.
  unfold InternetConnectivityChecker.is_connected.
  pose proof (stage_verbose (check_socket_connection c n) socket_failed true false
                (reliable_hosts c) o1 [] [] []) as H1.
  destruct (stage _ _ true _ o1 [] []) as [[[rs1 ch1]|e1] lg1],
    (stage _ _ false _ o1 [] []) as [[[rs1' ch1']|e1'] lg1']; simpl in H1; try discriminate;
    [|injection H1 as <-; reflexivity].
  injection H1 as <- <-.
  destruct (existsb id ch1) eqn:E1; simpl; [repeat (rewrite E1; simpl); reflexivity|].
  pose proof (stage_verbose (check_dns_resolution c n) dns_failed true false
                (dns_hosts c) o2 ch1 lg1 lg1') as H2.
  destruct (stage _ _ true _ o2 ch1 lg1) as [[[rs2 ch2]|e2] lg2],
    (stage _ _ false _ o2 ch1 lg1') as [[[rs2' ch2']|e2'] lg2']; simpl in H2; try discriminate;
    [|injection H2 as <-; reflexivity].
  injection H2 as <- <-.
  destruct (existsb id ch2) eqn:E2; simpl; [repeat (rewrite E2; simpl); reflexivity|].
  pose proof (stage_verbose (check_http_connection c n) http_failed true false
                (http_endpoints c) o3 ch2 lg2 lg2') as H3.
  destruct (stage _ _ true _ o3 ch2 lg2) as [[[rs3 ch3]|e3] lg3],
    (stage _ _ false _ o3 ch2 lg2') as [[[rs3' ch3']|e3'] lg3']; simpl in H3; try discriminate;
    [|injection H3 as <-; reflexivity].
  injection H3 as <- <-.
  destruct (existsb id ch3) eqn:E3; simpl; [repeat (rewrite E3; simpl); reflexivity|].
  destruct (fst (check_urllib_connection c n)) as [[[[] e]|]|ex]; reflexivity.
Qed.

Lemma details_loop_spec check k rd R hosts :
  (forall host, exists j, snd (check host) = repeat rd j /\ (j <= R)%nat) ->
  (forall host h ok e, fst (check host) = inl (Some (h, ok, e)) -> h = host) ->
  forall acc conn sl0 acc' conn' sl',
  details_loop check k hosts acc conn sl0 = (inl (acc', conn'), sl') ->
  exists new extra,
    acc' = (acc ++ new)%list /\ map name new = hosts /\
    Forall (fun e => key e = k /\ (success e = true -> error e = "")) new /\
    conn' = conn || existsb success new /\
    sl' = (sl0 ++ extra)%list /\ Forall (fun s => s = rd) extra /\
    (length extra <= R * length hosts)%nat /\
    exists chunks, extra = concat chunks /\ length chunks = length new /\
      Forall (fun ch => Forall (fun s => s = rd) ch /\ (length ch <= R)%nat) chunks.
Proof.
  intros Hs Hh. induction hosts as [|host hosts IH]; intros acc conn sl0 acc' conn' sl' E; simpl in E.
  - injection E as <- <- <-. exists [], []. rewrite !app_nil_r, orb_false_r.
    repeat split; try reflexivity; try constructor. simpl. lia.
    exists []. repeat split; try reflexivity; constructor.
  - destruct (Hs host) as (j & Hj & HjR). pose proof (Hh host) as Hhost.
    destruct (check host) as [r sl] eqn:Ec. simpl in Hj, Hhost. subst sl.
    destruct r as [[[[h ok] e]|]|ex]; try discriminate.
    rewrite (Hhost h ok e eq_refl) in E.
    apply IH in E as (new & extra & Ha & Hm & Hf & Hc & Hsl & Hfe & Hl & chunks & Hch & Hcl & Hcf).
    exists (mkEntry k host ok (if negb ok then e else "") :: new), (repeat rd j ++ extra)%list.
    split; [rewrite Ha, <- app_assoc; reflexivity|].
    split; [simpl; rewrite Hm; reflexivity|].
    split; [constructor; [split; [reflexivity|]; simpl; intros ->; reflexivity | exact Hf]|].
    split; [rewrite Hc; simpl; destruct conn, ok; reflexivity|].
    split; [rewrite Hsl, <- app_assoc; reflexivity|].
    split; [apply Forall_app; split; [apply Forall_forall; intros x Hx; apply list_elem_of_In, repeat_spec in Hx; exact Hx | exact Hfe]|].
    split; [rewrite length_app, repeat_length; simpl; nia|].
    exists (repeat rd j :: chunks). simpl. rewrite Hch.
    split; [reflexivity|]. split; [rewrite Hcl; reflexivity|].
    constructor; [|exact Hcf]. split; [|rewrite repeat_length; exact HjR].
    apply Forall_forall. intros x Hx. apply list_elem_of_In, repeat_spec in Hx. exact Hx.
Qed.

Lemma with_host_check c probe host :
  (exists j, snd (with_host host (check_loop c probe)) = repeat (retry_delay c) j /\
             (j <= Z.to_nat (retry_count c))%nat) /\
  (forall h ok e, fst (with_host host (check_loop c probe)) = inl (Some (h, ok, e)) -> h = host).
Proof.
  destruct (check_loop_sleeps c probe) as (j & Hj & Hle).
  unfold with_host. destruct (check_loop c probe) as [o sl]. simpl in Hj.
  split; [exists j; split; assumption|].
  intros h ok e. destruct o as [[[b m]|]|ex]; simpl; try discriminate.
  intros H. injection H as <- _ _. reflexivity.
Qed.

(** X: [get_connection_details] checks every reliable host in order; it
    checks the DNS hosts only when no socket check succeeded, and the HTTP
    endpoints only when no socket or DNS check succeeded; [connected] is
    whether some check succeeded; a successful entry has an empty error;
    every sleep lasts [retry_delay]; the sleeps come in one block per
    checked host, in the order of the entries, and each block has at most
    [retry_count] sleeps. *)
Theorem get_connection_details_structure c n d sl :
  get_connection_details c n = (inl d, sl) ->
  map name (socket_checks d) = reliable_hosts c /\
  map name (dns_checks d) = (if existsb success (socket_checks d) then [] else dns_hosts c) /\
  map name (http_checks d) =
    (if existsb success (socket_checks d ++ dns_checks d)%list then [] else http_endpoints c) /\
  connected d = existsb success (socket_checks d ++ dns_checks d ++ http_checks d)%list /\
  entries_ok "host" (socket_checks d) /\ entries_ok "host" (dns_checks d) /\
  entries_ok "url" (http_checks d) /\
  Forall (fun s => s = retry_delay c) sl /\
  (length sl <= Z.to_nat (retry_count c) *
     (length (reliable_hosts c) + length (dns_hosts c) + length (http_endpoints c)))%nat /\
  exists chunks, sl = concat chunks /\
    length chunks = length (socket_checks d ++ dns_checks d ++ http_checks d)%list /\
    Forall (fun ch => Forall (fun s => s = retry_delay c) ch /\
                      (length ch <= Z.to_nat (retry_count c))%nat) chunks.
Proof.
  assert (Hw : forall (check : string -> (option Check + Exc) * list Z),
    (forall host, exists probe, check host = with_host host (check_loop c probe)) ->
    (forall host, exists j, snd (check host) = repeat (retry_delay c) j /\
                            (j <= Z.to_nat (retry_count c))%nat) /\
    (forall host h ok e, fst (check host) = inl (Some (h, ok, e)) -> h = host)).
  { intros check Hc. split; intros host; destruct (Hc host) as [probe ->];
      apply (with_host_check c probe host). }
  destruct (Hw (check_socket_connection c n)) as [Hs1 Hh1];
    [intros host; eexists; reflexivity|].
  destruct (Hw (check_dns_resolution c n)) as [Hs2 Hh2];
    [intros host; eexists; reflexivity|].
  destruct (Hw (check_http_connection c n)) as [Hs3 Hh3];
    [intros host; eexists; reflexivity|].
  clear Hw. intros E. unfold get_connection_details in E.
  destruct (details_loop (check_socket_connection c n) "host" (reliable_hosts c) [] false [])
    as [[[sc b1]|ex] sl1] eqn:D1; [|discriminate].
  destruct (details_loop_spec _ _ _ _ _ Hs1 Hh1 _ _ _ _ _ _ D1)
    as (new1 & extra1 & -> & Hm1 & Hf1 & -> & -> & Hx1 & Hl1 & ch1 & Hc1 & Hcl1 & Hcf1).
  simpl in *.
  destruct (existsb success new1) eqn:B1; simpl in E.
  - injection E as <- <-. simpl. rewrite ?app_nil_r, ?existsb_app, ?B1; simpl.
    repeat split; try assumption; try constructor; [lia|].
    exists ch1. rewrite ?app_nil_r. repeat split; assumption.
  - destruct (details_loop (check_dns_resolution c n) "host" (dns_hosts c) [] false extra1)
      as [[[dc b2]|ex] sl2] eqn:D2; [|discriminate].
    destruct (details_loop_spec _ _ _ _ _ Hs2 Hh2 _ _ _ _ _ _ D2)
      as (new2 & extra2 & -> & Hm2 & Hf2 & -> & -> & Hx2 & Hl2 & ch2 & Hc2 & Hcl2 & Hcf2).
    simpl in *.
    destruct (existsb success new2) eqn:B2; simpl in E.
    + injection E as <- <-. simpl. rewrite ?app_nil_r, ?existsb_app, ?B1, ?B2; simpl.
      repeat split; try assumption; try constructor.
      * apply Forall_app; split; assumption.
      * rewrite length_app. lia.
      * exists (ch1 ++ ch2)%list. rewrite concat_app, Hc1, Hc2, !length_app, Hcl1, Hcl2.
        split; [reflexivity|]. split; [simpl; lia|]. apply Forall_app; split; assumption.
    + destruct (details_loop (check_http_connection c n) "url" (http_endpoints c) [] false
          (extra1 ++ extra2)%list) as [[[hc b3]|ex] sl3] eqn:D3; [|discriminate].
      destruct (details_loop_spec _ _ _ _ _ Hs3 Hh3 _ _ _ _ _ _ D3)
        as (new3 & extra3 & -> & Hm3 & Hf3 & -> & -> & Hx3 & Hl3 & ch3 & Hc3 & Hcl3 & Hcf3).
      injection E as <- <-. simpl. rewrite ?app_nil_r, ?existsb_app, ?B1, ?B2; simpl.
      repeat split; try assumption.
      * apply Forall_app; split; [apply Forall_app; split|]; assumption.
      * rewrite !length_app. lia.
      * exists (ch1 ++ ch2 ++ ch3)%list.
        rewrite !concat_app, Hc1, Hc2, Hc3, !length_app, Hcl1, Hcl2, Hcl3.
        split; [rewrite app_assoc; reflexivity|]. split; [simpl; lia|]. repeat (apply Forall_app; split); assumption.
Qed.

Lemma get_connection_details_structure_witness :
  let n := mkNet (fun _ _ => PCaught "timed out")
             (fun _ k => if Nat.eqb k 0 then PCaught "gaierror" else POk)
             (fun _ _ => POk) (fun _ => POk) in
  exists d sl,
  get_connection_details DEFAULT_CONFIG n = (inl d, sl) /\ connected d = true /\ sl <> [] /\
  map name (dns_checks d) =
    (if existsb success (socket_checks d) then [] else dns_hosts DEFAULT_CONFIG).
Proof.
  intros n. do 2 eexists. split; [vm_compute; reflexivity|].
  split; [reflexivity|]. split; [discriminate|].
  eapply (get_connection_details_structure DEFAULT_CONFIG n). vm_compute. reflexivity.
Defined.

End ConnectivityFacts.
